(** * amazon-scraper: a shallow embedding of [src/index.ts]

    The service is a single Express script.  This development embeds the
    parts of it that carry behaviour: the rate-limiting middleware, the
    browser singleton, the header generator, the two scraping backends and
    the retry loop of the [/api/scrape] handler. *)

From Stdlib Require Import ZArith String Ascii List Lia Bool.
From Stdlib Require Import SpecFloat DecimalString.
From stdpp Require Import gmap strings list fin_maps.

Local Open Scope string_scope.
Local Open Scope Z_scope.

(** ** JavaScript values used by the script

    Strings are byte strings holding UTF-8 text.  [undefined] is [None]. *)
Module JS.

(** Number of bytes of the white-space character that opens [s], or 0.
    These are the ECMAScript WhiteSpace and LineTerminator code points,
    the ones [String.prototype.trim] removes. *)
Definition space_width (s : string) : nat :=
  match s with
  | "" => 0
  | String a r =>
      if Ascii.is_space a then 1
      else
        match a, r with
        | "194", String "160" _ => 2                    (* U+00A0 *)
        | "225", String "154" (String "128" _) => 3     (* U+1680 *)
        | "226", String "128" (String c _) =>           (* U+2000-200A, 2028, 2029, 202F *)
            let n := nat_of_ascii c in
            if ((128 <=? n) && (n <=? 138))%nat
               || (n =? 168)%nat || (n =? 169)%nat || (n =? 175)%nat
            then 3 else 0
        | "226", String "129" (String "159" _) => 3     (* U+205F *)
        | "227", String "128" (String "128" _) => 3     (* U+3000 *)
        | "239", String "187" (String "191" _) => 3     (* U+FEFF *)
        | _, _ => 0
        end%char
  end%nat.

Fixpoint drop_bytes (n : nat) (s : string) : string :=
  match n, s with
  | S n', String _ r => drop_bytes n' r
  | _, _ => s
  end.

Fixpoint trimStart_go (fuel : nat) (s : string) : string :=
  match fuel with
  | O => s
  | S fuel' =>
      match space_width s with
      | O => s
      | w => trimStart_go fuel' (drop_bytes w s)
      end
  end.

Definition trimStart (s : string) : string := trimStart_go (String.length s) s.

(** [s] is made of white space only. *)
Definition blank (s : string) : bool :=
  match trimStart s with "" => true | _ => false end.

Fixpoint trimEnd (s : string) : string :=
  match s with
  | "" => ""
  | String a r => if blank s then "" else String a (trimEnd r)
  end.

Definition trim (s : string) : string := trimEnd (trimStart s).

(** [String.prototype.includes]. *)
Fixpoint includes (s sub : string) : bool :=
  if String.prefix sub s then true
  else match s with
       | "" => false
       | String _ r => includes r sub
       end.

(** Truthiness of a value that is a string or [undefined]. *)
Definition truthy (v : option string) : bool :=
  match v with
  | Some (String _ _) => true
  | _ => false
  end.

(** *** [parseInt] with no radix argument.  [None] is [NaN]. *)
Definition digit_value (a : ascii) : option Z :=
  let n := Z.of_nat (nat_of_ascii a) in
  if (48 <=? n) && (n <=? 57) then Some (n - 48)
  else if (97 <=? n) && (n <=? 122) then Some (n - 87)
  else if (65 <=? n) && (n <=? 90) then Some (n - 55)
  else None.

Fixpoint parse_digits (radix : Z) (s : string) (acc : option Z) : option Z :=
  match s with
  | "" => acc
  | String a r =>
      match digit_value a with
      | Some d =>
          if d <? radix then parse_digits radix r (Some (default 0 acc * radix + d))
          else acc
      | None => acc
      end
  end.

Definition parseInt (input : string) : option Z :=
  let s := trimStart input in
  let '(sign, s) :=
    match s with
    | String "-" r => (-1, r)
    | String "+" r => (1, r)
    | _ => (1, s)
    end%char in
  let '(radix, s) :=
    if String.prefix "0x" s || String.prefix "0X" s then (16, drop_bytes 2 s)
    else (10, s) in
  Z.mul sign <$> parse_digits radix s None.

(** [x || 0] for a number [x]: [NaN] and [0] are falsy. *)
Definition or_zero (x : option Z) : Z := default 0 x.

(** *** The body of a response

    The request of [scrapeWithAxios] sets no [responseType], so axios
    hands over a body that parses as JSON as the value it denotes, and
    any other body as its text. *)
#[warnings="-register-all"]
Inductive json : Type :=
| JNull
| JBool (b : bool)
| JNumber (x : spec_float)
| JString (s : string)
| JArray (items : list json)
| JObject (fields : list (string * json)).

(** [x === s] for a string [s]. *)
Definition is_string (s : string) (x : json) : bool :=
  match x with
  | JString t => String.eqb t s
  | _ => false
  end.

End JS.

(** ** The document tree the extraction code reads

    Elements carry their tag name, their attributes in source order and
    their children.  Tag and attribute names are the lower-case names an
    HTML parser produces; the document is in no-quirks mode, so class and
    id selectors compare case-sensitively. *)
Module Dom.

#[warnings="-register-all"]
Inductive node : Type :=
| Text (data : string)
| Element (tag : string) (attrs : list (string * string)) (children : list node).

(** An element together with its ancestors, nearest first. *)
Record located : Type := Located { self : node; ancestors : list node }.

Fixpoint textContent (n : node) : string :=
  match n with
  | Text d => d
  | Element _ _ cs =>
      (fix go (cs : list node) : string :=
         match cs with
         | [] => ""
         | c :: cs' => textContent c +:+ go cs'
         end) cs
  end.

Fixpoint assoc (name : string) (attrs : list (string * string)) : option string :=
  match attrs with
  | [] => None
  | (k, v) :: rest => if String.eqb k name then Some v else assoc name rest
  end.

Definition getAttribute (n : node) (name : string) : option string :=
  match n with
  | Text _ => None
  | Element _ attrs _ => assoc name attrs
  end.

Definition tagName (n : node) : option string :=
  match n with
  | Text _ => None
  | Element t _ _ => Some t
  end.

(** The element descendants of [n] in document order. *)
Fixpoint descendants (anc : list node) (n : node) : list located :=
  match n with
  | Text _ => []
  | Element _ _ cs =>
      (fix go (cs : list node) : list located :=
         match cs with
         | [] => []
         | c :: cs' =>
             ((match c with
               | Text _ => []
               | Element _ _ _ => [Located c (n :: anc)]
               end) ++ descendants (n :: anc) c ++ go cs')%list
         end) cs
  end.

(** *** Selectors: the fragment of CSS the script uses *)
Inductive simple : Type :=
| STag (t : string)               (* h2 *)
| SClass (c : string)             (* .a-price *)
| SId (i : string)                (* #captchacharacters *)
| SHasAttr (a : string)           (* [data-asin] *)
| SAttrContains (a v : string).   (* [href*="/dp/"] *)

(** A compound selector is a conjunction of simple ones; a complex
    selector is a subject with the compounds its ancestors must match,
    nearest first (descendant combinators); a selector list is a
    disjunction. *)
Definition compound : Type := list simple.
Record complex : Type := Complex { subject : compound; context : list compound }.
Definition selector : Type := list complex.

(** HTML white space separates class names. *)
Definition html_space (a : ascii) : bool :=
  match a with
  | "009" | "010" | "012" | "013" | " " => true
  | _ => false
  end%char.

Fixpoint tokens_go (cur : string) (s : string) : list string :=
  match s with
  | "" => match cur with "" => [] | _ => [String.rev cur] end
  | String a r =>
      if html_space a
      then (match cur with "" => [] | _ => [String.rev cur] end ++ tokens_go "" r)%list
      else tokens_go (String a cur) r
  end.
Definition tokens : string -> list string := tokens_go "".

Definition matches_simple (s : simple) (n : node) : bool :=
  match s with
  | STag t => match tagName n with Some t' => String.eqb t t' | None => false end
  | SClass c =>
      match getAttribute n "class" with
      | Some v => existsb (String.eqb c) (tokens v)
      | None => false
      end
  | SId i =>
      match getAttribute n "id" with
      | Some v => String.eqb i v
      | None => false
      end
  | SHasAttr a => match getAttribute n a with Some _ => true | None => false end
  | SAttrContains a v =>
      match getAttribute n a with
      | Some w => match v with "" => false | _ => JS.includes w v end
      | None => false
      end
  end.

Definition matches_compound (c : compound) (n : node) : bool :=
  match n with
  | Text _ => false
  | Element _ _ _ => forallb (fun s => matches_simple s n) c
  end.

(** Descendant combinators: each compound of the context is matched by
    some ancestor, going outwards. *)
Fixpoint matches_context (ctx : list compound) (anc : list node) : bool :=
  match ctx with
  | [] => true
  | c :: ctx' =>
      (fix find (anc : list node) : bool :=
         match anc with
         | [] => false
         | a :: anc' =>
             if matches_compound c a then matches_context ctx' anc' else find anc'
         end) anc
  end.

Definition matches (sel : selector) (e : located) : bool :=
  existsb (fun c => matches_compound (subject c) (self e)
                    && matches_context (context c) (ancestors e)) sel.

(** [root.querySelectorAll(sel)] and [root.querySelector(sel)]: the
    descendants of [root] that match, the ancestors of [root] taking
    part in the match. *)
Definition querySelectorAll (sel : selector) (root : located) : list located :=
  List.filter (matches sel) (descendants (ancestors root) (self root)).

Definition querySelector (sel : selector) (root : located) : option located :=
  head (querySelectorAll sel root).

(** The document node of a tree whose root element is [html]. *)
Definition document (html : node) : located :=
  Located (Element "#document" [] [html]) [].

(** The selectors of the script. *)
Definition sel_item : selector := [Complex [SHasAttr "data-asin"] []].
Definition sel_title : selector := [Complex [STag "span"] [[STag "h2"]]].
Definition sel_price : selector := [Complex [STag "span"] [[SClass "a-price"]]].
Definition sel_rating : selector := [Complex [SAttrContains "aria-label" "stars"] []].
Definition sel_image : selector := [Complex [STag "img"; SClass "s-image"] []].
Definition sel_dp : selector := [Complex [STag "a"; SAttrContains "href" "/dp/"] []].
Definition sel_dp_or_gp : selector :=
  [Complex [STag "a"; SAttrContains "href" "/dp/"] [];
   Complex [STag "a"; SAttrContains "href" "/gp/product/"] []].
Definition sel_captcha : selector := [Complex [SId "captchacharacters"] []].

End Dom.

(** ** Dynamic headers generator (index.ts, lines 113-131)

    [Math.random()] yields a binary64 number; numbers are IEEE 754
    doubles, written here with the Standard Library's [spec_float]
    ([prec = 53], [emax = 1024]). *)
Module Headers.

Definition mul : spec_float -> spec_float -> spec_float := SFmul 53 1024.

(** The literals [10] and [1] (used to bound a draw). *)
Definition ten : spec_float := S754_finite false 5629499534213120 (-49).
Definition one : spec_float := S754_finite false 4503599627370496 (-52).

(** What [Math.random] may return: a double [r] with [0 <= r < 1]. *)
Definition is_draw (r : spec_float) : bool :=
  valid_binary 53 1024 r && SFleb (S754_zero false) r && SFltb r one.

(** [Math.floor] of a finite double, as an integer. *)
Definition floor (x : spec_float) : Z :=
  match x with
  | S754_finite s m e =>
      let v := if s then Z.neg m else Z.pos m in
      if 0 <=? e then v * 2 ^ e else v / 2 ^ (- e)
  | _ => 0
  end.

(** [Math.floor(Math.random() * 10) + 115]; the sum is exact, both
    operands being small integers. *)
Definition chromeVersion (r : spec_float) : Z := floor (mul r ten) + 115.

(** Decimal digits of an integer, as a template literal prints it. *)
Definition number_to_string (z : Z) : string := NilEmpty.string_of_int (Z.to_int z).

(** The double-quote character. *)
Definition dq : string := String (ascii_of_nat 34) "".

Definition sec_ch_ua (v : string) : string :=
  dq +:+ "Google Chrome" +:+ dq +:+ ";v=" +:+ dq +:+ v +:+ dq +:+ ", " +:+
  dq +:+ "Chromium" +:+ dq +:+ ";v=" +:+ dq +:+ v +:+ dq +:+ ", " +:+
  dq +:+ "Not=A?Brand" +:+ dq +:+ ";v=" +:+ dq +:+ "24" +:+ dq.

Definition user_agent (v : string) : string :=
  "Mozilla/5.0 (Windows NT 10.0; Win64; x64) AppleWebKit/537.36 (KHTML, like Gecko) Chrome/"
  +:+ v +:+ ".0.0.0 Safari/537.36".

(** The object literal, as the list of its properties in source order;
    [r] is the value [Math.random()] returned. *)
Definition getAmazonHeaders (r : spec_float) : list (string * string) :=
  let chromeVersion := number_to_string (chromeVersion r) in
  [ ("authority", "www.amazon.com");
    ("accept", "text/html,application/xhtml+xml,application/xml;q=0.9,image/webp,image/apng,*/*;q=0.8");
    ("accept-language", "en-US,en;q=0.9");
    ("cache-control", "max-age=0");
    ("sec-ch-ua", sec_ch_ua chromeVersion);
    ("sec-ch-ua-mobile", "?0");
    ("sec-ch-ua-platform", dq +:+ "Windows" +:+ dq);
    ("sec-fetch-dest", "document");
    ("sec-fetch-mode", "navigate");
    ("sec-fetch-site", "none");
    ("sec-fetch-user", "?1");
    ("upgrade-insecure-requests", "1");
    ("user-agent", user_agent chromeVersion) ].

(** Property access [headers[name]]. *)
Definition header (name : string) (headers : list (string * string)) : option string :=
  Dom.assoc name headers.

(** *** Reading the version back from a header value *)

(** The decimal digits that open [s], as a number. *)
Fixpoint leading_digits (s : string) (acc : option Z) : option Z :=
  match s with
  | "" => acc
  | String a r =>
      match Ascii.is_nat a with
      | Some d => leading_digits r (Some (default 0 acc * 10 + Z.of_nat d))
      | None => acc
      end
  end.

(** What follows the first occurrence of [marker] in [s]. *)
Fixpoint after (marker s : string) : option string :=
  if String.prefix marker s then Some (JS.drop_bytes (String.length marker) s)
  else match s with
       | "" => None
       | String _ r => after marker r
       end.

(** The major version of the [Chrome/] token of a user-agent string. *)
Definition user_agent_version (ua : string) : option Z :=
  after "Chrome/" ua ≫= fun r => leading_digits r None.

(** The version a [sec-ch-ua] value gives for [brand]. *)
Definition client_hint_version (brand hint : string) : option Z :=
  after (dq +:+ brand +:+ dq +:+ ";v=" +:+ dq) hint ≫= fun r => leading_digits r None.

(** *** Rounding

    What the proofs about [mul] keep track of while a mantissa is
    shifted right. *)

(** After [k] steps from [(m0, false, false)]: the mantissa is the
    quotient, and the round bit tells that at least half was dropped. *)
Definition shifted (m0 k : Z) (mrs : shr_record) : Prop :=
  shr_m mrs = m0 / 2 ^ k /\
  (shr_r mrs = true -> 2 ^ k <= 2 * (m0 mod 2 ^ k)).

End Headers.

(** ** Rate limiting middleware (index.ts, lines 49-65)

    [requestCounts] is the module-level [Map].  Every admitted request
    registers a [setTimeout] callback that deletes the client's entry
    60000 ms later; the pending callbacks are kept in [timers] together
    with the instant at which they are due.  Time is counted in
    milliseconds. *)
Module RateLimit.

Inductive verdict : Type :=
| Next              (* next() is called, the request goes on *)
| TooManyRequests.  (* res.status(429) *)

Record state : Type := mkState {
  requestCounts : gmap string Z;
  timers : list (Z * string)
}.

Definition initial : state := mkState ∅ [].

(** The body of the middleware, run at instant [now] for [req.ip = ip]. *)
Definition middleware (now : Z) (ip : string) (st : state) : verdict * state :=
  let currentCount := default 0 (requestCounts st !! ip) in
  if 10 <? currentCount then (TooManyRequests, st)
  else (Next,
        mkState (<[ip := currentCount + 1]> (requestCounts st))
                (timers st ++ [(now + 60000, ip)])).

(** The event loop runs every callback that is due: each one performs
    [requestCounts.delete(ip)]. *)
Definition run_timers (now : Z) (st : state) : state :=
  mkState
    (foldl (fun m t => delete (snd t) m) (requestCounts st)
           (filter (fun t : Z * string => fst t <= now) (timers st)))
    (filter (fun t : Z * string => ~ fst t <= now) (timers st)).

(** A request arriving at [now]: due callbacks first, then the middleware. *)
Definition request (now : Z) (ip : string) (st : state) : verdict * state :=
  middleware now ip (run_timers now st).

Fixpoint run (reqs : list (Z * string)) (st : state) : list verdict * state :=
  match reqs with
  | [] => ([], st)
  | (now, ip) :: rest =>
      let '(v, st1) := request now ip st in
      let '(vs, st2) := run rest st1 in
      (v :: vs, st2)
  end.

(** Number of requests of [ip] in a list of requests. *)
Definition requests_of (ip : string) (reqs : list (Z * string)) : nat :=
  length (filter (fun r : Z * string => snd r = ip) reqs).

(** All the requests of a list fall in the window that opens at [t0]. *)
Definition in_window (t0 : Z) (reqs : list (Z * string)) : Prop :=
  Forall (fun r : Z * string => t0 <= fst r < t0 + 60000) reqs.

(** [ip] has neither an entry nor a pending callback. *)
Definition fresh (ip : string) (st : state) : Prop :=
  requestCounts st !! ip = None /\
  Forall (fun t : Z * string => snd t <> ip) (timers st).

(** The entry of [ip] after [n] of its requests inside one window. *)
Definition count_after (n : nat) : option Z :=
  match n with
  | O => None
  | S _ => Some (Z.min (Z.of_nat n) 11)
  end.

Definition window_inv (t0 : Z) (ip : string) (n : nat) (st : state) : Prop :=
  requestCounts st !! ip = count_after n /\
  Forall (fun t : Z * string => snd t = ip -> t0 + 60000 <= fst t) (timers st).

(** A client and its requests, one per second. *)
Definition client : string := "203.0.113.7".
Definition burst (n : nat) : list (Z * string) :=
  map (fun k : nat => (1000 * Z.of_nat k, client)) (seq 0 n).

End RateLimit.

(** ** Effects: exceptions, the outside world and the state of the process

    An [async] function is a computation that reads and writes the state of
    the process and either returns or throws.  What the outside world
    answers (the browser, the site, the network, the random source) is
    fixed by an [environment], indexed by the number of the call. *)
Module Effects.

(** A JavaScript [Error]; [response_status] is [error.response?.status]. *)
Record js_error : Type := JsError { message : string; response_status : option Z }.
Definition Error (msg : string) : js_error := JsError msg None.

Inductive outcome (A : Type) : Type :=
| Returned (a : A)
| Thrown (e : js_error).
Arguments Returned {A} a.
Arguments Thrown {A} e.

(** What one page shows while [scrapeWithPuppeteer] drives it. *)
Record page_script : Type := PageScript {
  newPage_failure : option js_error;
  setup_failure : option js_error;   (* setUserAgent, setViewport, setRequestInterception *)
  goto_failure : option js_error;    (* navigation error or 30 s timeout *)
  after_goto : Dom.node;             (* the document once navigation is over *)
  solve_failure : option js_error;   (* page.solveRecaptchas() *)
  after_solve : Dom.node;            (* the document after the solving pass *)
  settled : Dom.node;                (* the document when waitForSelector settles *)
  wait_failure : js_error            (* what waitForSelector throws after 10 s *)
}.

(** What one [axios.get] answers: a failure, or a body [data] and the
    tree [new JSDOM(data)] builds from it (from [String(data)] when the
    body is no string). *)
Record fetch_script : Type := FetchScript {
  fetch_failure : option js_error;
  data : JS.json;
  parsed : Dom.node
}.

Record environment : Type := Environment {
  launch_failure : nat -> option js_error;  (* puppeteer.launch, by call number *)
  visits : nat -> page_script;              (* browser.newPage, by call number *)
  responses : nat -> fetch_script;          (* axios.get, by call number *)
  draws : nat -> spec_float;                (* Math.random, by call number *)
  page_href : string -> string;             (* element.href in the rendered page *)
  url_pathname : string -> option string;   (* new URL(s).pathname; None: TypeError *)
  jsdom_url : string -> string              (* element.href / .src in the JSDOM window *)
}.

Inductive event : Type :=
| Sleep (ms : Z)                 (* await new Promise(r => setTimeout(r, ms)) *)
| Puppeteer (keyword : string)   (* scrapeWithPuppeteer(keyword) is entered *)
| Axios (keyword : string)       (* scrapeWithAxios(keyword) is entered *)
| ClearData                      (* clearPuppeteerData() *)
| Launch (browser : nat)         (* puppeteer.launch(...) is called *)
| NewPage (page : nat)           (* browser.newPage() resolved *)
| SetUserAgent (ua : string)
| Get (headers : list (string * string)).

Record world : Type := World {
  browserInstance : option nat;  (* the module-level variable *)
  launch_calls : nat;
  page_calls : nat;
  get_calls : nat;
  random_calls : nat;
  open_pages : list nat;         (* pages opened and not closed *)
  trace : list event             (* oldest first *)
}.

Definition boot : world := World None 0 0 0 0 [] [].

Definition M (A : Type) : Type := world -> outcome A * world.

Definition ret {A} (a : A) : M A := fun w => (Returned a, w).
Definition throw {A} (e : js_error) : M A := fun w => (Thrown e, w).
Definition bind {A B} (m : M A) (k : A -> M B) : M B :=
  fun w => match m w with
           | (Returned a, w1) => k a w1
           | (Thrown e, w1) => (Thrown e, w1)
           end.
(** [try { m } catch (e) { h e }] *)
Definition try_catch {A} (m : M A) (h : js_error -> M A) : M A :=
  fun w => match m w with
           | (Returned a, w1) => (Returned a, w1)
           | (Thrown e, w1) => h e w1
           end.
Definition get : M world := fun w => (Returned w, w).

Definition emit (e : event) : M unit :=
  fun w => (Returned tt,
            World (browserInstance w) (launch_calls w) (page_calls w) (get_calls w)
                  (random_calls w) (open_pages w) (trace w ++ [e])).

(** A call that fails when the world says so. *)
Definition may_fail (f : option js_error) : M unit :=
  match f with
  | Some e => throw e
  | None => ret tt
  end.

(** [m] leaves the observation [f] of the world as it was. *)
Definition stable {A X} (f : world -> X) (m : M A) : Prop :=
  forall w, f (snd (m w)) = f w.

(** Whatever [m] returns satisfies [Q]. *)
Definition ensures {A} (m : M A) (Q : A -> Prop) : Prop :=
  forall w a w1, m w = (Returned a, w1) -> Q a.

End Effects.

Notation "x <- m ;; k" := (Effects.bind m (fun x => k))
  (at level 100, m at next level, right associativity).
Notation "m ;;; k" := (Effects.bind m (fun _ => k))
  (at level 100, right associativity).

(** ** Browser instance management (index.ts, lines 67-111) *)
Module Browser.
Import Effects.

Section WithEnvironment.
Variable env : environment.

(** [clearPuppeteerData] catches its own errors and never throws. *)
Definition clearPuppeteerData : M unit := emit ClearData.

(** [puppeteer.launch(launchOptions)]: starts a render process, the
    browser being named by the number of the call. *)
Definition launch : M nat :=
  fun w =>
    let b := launch_calls w in
    let w1 := World (browserInstance w) (S b) (page_calls w) (get_calls w)
                    (random_calls w) (open_pages w) (trace w ++ [Launch b]) in
    match launch_failure env b with
    | Some e => (Thrown e, w1)
    | None => (Returned b, w1)
    end.

Definition set_browserInstance (b : nat) : M unit :=
  fun w => (Returned tt,
            World (Some b) (launch_calls w) (page_calls w) (get_calls w)
                  (random_calls w) (open_pages w) (trace w)).

(** [getBrowser], run with nothing else scheduled at its two [await]s. *)
Definition getBrowser : M nat :=
  w <- get;;
  match browserInstance w with
  | Some b => ret b
  | None =>
      clearPuppeteerData;;;
      b <- launch;;
      set_browserInstance b;;;
      ret b
  end.

(** *** Concurrent calls

    The body of [getBrowser] has two [await]s, so an activation runs
    in three uninterrupted segments; other activations may run
    between them. *)
Inductive activation : Type :=
| Called                         (* about to test browserInstance *)
| Clearing                       (* suspended at await clearPuppeteerData() *)
| Launching (r : outcome nat)    (* suspended at await puppeteer.launch(...) *)
| Settled (r : outcome nat).     (* returned or thrown *)

Definition resume (a : activation) (w : world) : activation * world :=
  match a with
  | Called =>
      match browserInstance w with
      | Some b => (Settled (Returned b), w)
      | None => (Clearing, snd (clearPuppeteerData w))
      end
  | Clearing => let '(r, w1) := launch w in (Launching r, w1)
  | Launching (Returned b) => (Settled (Returned b), snd (set_browserInstance b w))
  | Launching (Thrown e) => (Settled (Thrown e), w)
  | Settled r => (Settled r, w)
  end.

(** One turn of the event loop: every activation runs its next segment,
    in the order of the calls. *)
Fixpoint round (acts : list activation) (w : world) : list activation * world :=
  match acts with
  | [] => ([], w)
  | a :: rest =>
      let '(a1, w1) := resume a w in
      let '(rest1, w2) := round rest w1 in
      (a1 :: rest1, w2)
  end.

(** [n] calls issued in the same turn, run until all have settled. *)
Definition simultaneous (n : nat) (w : world) : list activation * world :=
  let '(acts1, w1) := round (replicate n Called) w in
  let '(acts2, w2) := round acts1 w1 in
  round acts2 w2.

(** Render processes created so far: the launches that did not fail. *)
Definition processes (w : world) : nat :=
  length (List.filter (fun b => match launch_failure env b with
                                | None => true
                                | Some _ => false
                                end) (seq 0 (launch_calls w))).

End WithEnvironment.
End Browser.

(** ** The two scrapers (index.ts, lines 197-285) *)
Module Scrape.
Import Effects.

Record product : Type := Product {
  title : option string;
  price : option string;
  rating : option string;
  imageUrl : option string;
  link : option string
}.

(** [p => p.title && p.price] *)
Definition valid (p : product) : bool := JS.truthy (title p) && JS.truthy (price p).

(** [el?.textContent?.trim()] *)
Definition getText (el : option Dom.located) : option string :=
  (fun e => JS.trim (Dom.textContent (Dom.self e))) <$> el.

(** [el?.getAttribute(attr)] *)
Definition getAttribute (el : option Dom.located) (attr : string) : option string :=
  el ≫= (fun e => Dom.getAttribute (Dom.self e) attr).

(** A value inside a template literal. *)
Definition interpolate (v : option string) : string := default "null" v.

(** A record with a non-empty title and a non-empty price. *)
Definition complete (p : product) : Prop :=
  exists t c, title p = Some t /\ t <> "" /\ price p = Some c /\ c <> "".

Fixpoint map_outcome {A B} (f : A -> outcome B) (l : list A) : outcome (list B) :=
  match l with
  | [] => Returned []
  | a :: rest =>
      match f a with
      | Thrown e => Thrown e
      | Returned b =>
          match map_outcome f rest with
          | Thrown e => Thrown e
          | Returned bs => Returned (b :: bs)
          end
      end
  end.

Section WithEnvironment.
Variable env : environment.

Definition random : M spec_float :=
  fun w => (Returned (draws env (random_calls w)),
            World (browserInstance w) (launch_calls w) (page_calls w) (get_calls w)
                  (S (random_calls w)) (open_pages w) (trace w)).

Definition getAmazonHeaders : M (list (string * string)) :=
  r <- random;; ret (Headers.getAmazonHeaders r).

(** [browser.newPage()]: the page joins the open pages. *)
Definition newPage : M (nat * page_script) :=
  fun w =>
    let p := page_calls w in
    let script := visits env p in
    match newPage_failure script with
    | Some e =>
        (Thrown e,
         World (browserInstance w) (launch_calls w) (S p) (get_calls w)
               (random_calls w) (open_pages w) (trace w))
    | None =>
        (Returned (p, script),
         World (browserInstance w) (launch_calls w) (S p) (get_calls w)
               (random_calls w) (p :: open_pages w) (trace w ++ [NewPage p]))
    end.

(** The callback of [page.evaluate] for one item (lines 238-253). *)
Definition rendered_item (item : Dom.located) : outcome product :=
  let asin := Dom.getAttribute (Dom.self item) "data-asin" in
  let linkElement := Dom.querySelector Dom.sel_dp_or_gp item in
  match
    match linkElement with
    | Some a =>
        match url_pathname env (page_href env (default "" (Dom.getAttribute (Dom.self a) "href"))) with
        | Some path => Returned ("https://www.amazon.com" +:+ path)
        | None => Thrown (Error "Invalid URL")
        end
    | None => Returned ("https://www.amazon.com/dp/" +:+ interpolate asin)
    end
  with
  | Thrown e => Thrown e
  | Returned l =>
      Returned (Product (getText (Dom.querySelector Dom.sel_title item))
                        (getText (Dom.querySelector Dom.sel_price item))
                        (getAttribute (Dom.querySelector Dom.sel_rating item) "aria-label")
                        (getAttribute (Dom.querySelector Dom.sel_image item) "src")
                        (Some l))
  end.

Definition evaluate (doc : Dom.node) : M (list product) :=
  fun w =>
    (match map_outcome rendered_item (Dom.querySelectorAll Dom.sel_item (Dom.document doc)) with
     | Thrown e => Thrown e
     | Returned ps => Returned (List.filter valid ps)
     end, w).

Definition present (sel : Dom.selector) (doc : Dom.node) : bool :=
  match Dom.querySelector sel (Dom.document doc) with
  | Some _ => true
  | None => false
  end.

(** What the [try] block does with its page (lines 206-255). *)
Definition page_steps (page : page_script) : M (list product) :=
  headers <- getAmazonHeaders;;
  emit (SetUserAgent (default "" (Headers.header "user-agent" headers)));;;
  may_fail (setup_failure page);;;
  may_fail (goto_failure page);;;
  (if present Dom.sel_captcha (after_goto page)
   then may_fail (solve_failure page);;;
        if present Dom.sel_captcha (after_solve page)
        then throw (Error "CAPTCHA verification required")
        else ret tt
   else ret tt);;;
  (if present Dom.sel_item (settled page) then ret tt else throw (wait_failure page));;;
  evaluate (settled page).

(** [scrapeWithPuppeteer], as far as the source has it: the text of the
    function stops after [page.evaluate], the [try] block has no
    handler, so a failure of any step leaves the block at once. *)
Definition scrapeWithPuppeteer (keyword : string) : M (list product) :=
  emit (Puppeteer keyword);;;
  browser <- Browser.getBrowser env;;
  ps <- newPage;;
  page_steps ps.2.



(** The callback of [map] in [scrapeWithAxios] (lines 271-277). *)
Definition fetched_item (item : Dom.located) : product :=
  let reflected (el : option Dom.located) (attr : string) : option string :=
    (fun e => match Dom.getAttribute (Dom.self e) attr with
              | Some v => jsdom_url env v
              | None => ""
              end) <$> el in
  Product (getText (Dom.querySelector Dom.sel_title item))
          (getText (Dom.querySelector Dom.sel_price item))
          (getAttribute (Dom.querySelector Dom.sel_rating item) "aria-label")
          (reflected (Dom.querySelector Dom.sel_image item) "src")
          (reflected (Dom.querySelector Dom.sel_dp item) "href").

Definition axios_get (headers : list (string * string)) : M fetch_script :=
  fun w =>
    let r := responses env (get_calls w) in
    let w1 := World (browserInstance w) (launch_calls w) (page_calls w) (S (get_calls w))
                    (random_calls w) (open_pages w) (trace w ++ [Get headers]) in
    match fetch_failure r with
    | Some e => (Thrown e, w1)
    | None => (Returned r, w1)
    end.

(** [data.includes(x)] (line 265): [String.prototype.includes] on a
    string, [Array.prototype.includes] on an array.  [null] has no
    properties, and a number, a boolean or an object has no method
    [includes]: the call throws a [TypeError], worded as V8 words it. *)
Definition data_includes (data : JS.json) (x : string) : M bool :=
  match data with
  | JS.JString s => ret (JS.includes s x)
  | JS.JArray items => ret (existsb (JS.is_string x) items)
  | JS.JNull => throw (Error "Cannot read properties of null (reading 'includes')")
  | JS.JBool _ | JS.JNumber _ | JS.JObject _ =>
      throw (Error "data.includes is not a function")
  end.

Definition scrapeWithAxios (keyword : string) : M (list product) :=
  emit (Axios keyword);;;
  try_catch
    (headers <- getAmazonHeaders;;
     r <- axios_get headers;;
     marked <- data_includes (data r) "robot-verification";;
     if marked
     then throw (Error "CAPTCHA detected")
     else ret (List.filter valid
                 (map fetched_item
                      (Dom.querySelectorAll Dom.sel_item (Dom.document (parsed r))))))
    (fun error =>
       throw (Error (if decide (response_status error = Some 503)
                     then "Amazon is blocking requests"
                     else message error))).

End WithEnvironment.
End Scrape.

(** ** The [/api/scrape] handler (index.ts, lines 133-195) *)
Module Handler.
Import Effects Scrape.

(** A value of [req.query]: a string, or something else (an array, a
    nested object) known by what [String(v)] gives. *)
Inductive query_value : Type :=
| QString (s : string)
| QOther (to_string : string).

Definition to_string (v : query_value) : string :=
  match v with
  | QString s => s
  | QOther s => s
  end.

Inductive response : Type :=
| BadRequest                                      (* 400 *)
| NotFound (error details : string)               (* 404 *)
| Success (count : nat) (products : list product) (* 200 *)
| ServerError (details : string).                 (* 500 *)

(** [Math.min(parseInt(retry) || 0, 3)], [retry] defaulting to the
    number [0].  Integers only: the loop below reads [retryCount]
    through comparisons that rounding to a double does not change. *)
Definition retryCount_of (retry : option query_value) : Z :=
  let retry := match retry with
               | Some v => to_string v
               | None => "0"
               end in
  Z.min (JS.or_zero (JS.parseInt retry)) 3.

Record loop_state : Type := LoopState {
  products : list product;
  lastError : option js_error
}.

Section WithEnvironment.
Variable env : environment.

Definition sleep (delay : Z) : M unit := emit (Sleep delay).

(** The body of the [for] loop for one value of [attempt]; the boolean
    tells whether [break] was executed. *)
Definition attempt_body (keyword : string) (retryCount attempt : Z)
    (st : loop_state) : M (loop_state * bool) :=
  try_catch
    ((if 0 <? attempt then sleep (2000 * attempt) else ret tt);;;
     ps <- scrapeWithPuppeteer env keyword;;
     ret (LoopState ps (lastError st), (0 <? length ps)%nat))
    (fun error =>
       let st1 := LoopState (products st) (Some error) in
       if attempt =? retryCount
       then try_catch
              (ps <- scrapeWithAxios env keyword;;
               ret (LoopState ps (lastError st1), false))
              (fun axiosError =>
                 ret (LoopState (products st1) (Some axiosError), false))
       else ret (st1, false)).

(** [for (attempt; attempt <= retryCount; attempt++)]; [fuel] bounds
    the number of iterations. *)
Fixpoint attempts (fuel : nat) (keyword : string) (retryCount attempt : Z)
    (st : loop_state) : M loop_state :=
  match fuel with
  | O => ret st
  | S fuel' =>
      if attempt <=? retryCount
      then r <- attempt_body keyword retryCount attempt st;;
           if r.2 then ret r.1
           else attempts fuel' keyword retryCount (attempt + 1) r.1
      else ret st
  end.

Definition handler (keyword retry : option query_value) : M response :=
  try_catch
    (match keyword with
     | Some (QString (String a k)) =>
         let keyword := String a k in
         let retryCount := retryCount_of retry in
         st <- attempts (Z.to_nat (retryCount + 1)) keyword retryCount 0
                        (LoopState [] None);;
         match products st with
         | [] =>
             ret (NotFound "No products found"
                    (match lastError st with
                     | Some (JsError (String b m) _) => String b m
                     | _ => "Try different keywords"
                     end))
         | _ =>
             ret (Success (length (products st)) (List.filter valid (products st)))
         end
     | _ => ret BadRequest
     end)
    (fun error =>
       ret (ServerError (if JS.includes (message error) "CAPTCHA"
                         then "CAPTCHA detected"
                         else message error))).

End WithEnvironment.

(** *** Reading a trace *)
Definition is_puppeteer (e : event) : bool :=
  match e with Puppeteer _ => true | _ => false end.
Definition is_axios (e : event) : bool :=
  match e with Axios _ => true | _ => false end.
Definition puppeteer_calls (t : list event) : nat := length (List.filter is_puppeteer t).
Definition axios_calls (t : list event) : nat := length (List.filter is_axios t).

(** The events the handler itself decides: waits and calls of a scraper. *)
Definition is_orchestration (e : event) : bool :=
  match e with
  | Sleep _ | Puppeteer _ | Axios _ => true
  | _ => false
  end.
Definition orchestration (t : list event) : list event := List.filter is_orchestration t.

(** What attempt [i] adds: a wait of [2000 * i] ms unless [i] is 0, then
    the rendering scraper. *)
Definition attempt_events (keyword : string) (i : Z) : list event :=
  ((if 0 <? i then [Sleep (2000 * i)] else []) ++ [Puppeteer keyword])%list.

(** The attempts [a], [a + 1], ..., [n] of them. *)
Fixpoint schedule (keyword : string) (a : Z) (n : nat) : list event :=
  match n with
  | O => []
  | S n' => (attempt_events keyword a ++ schedule keyword (a + 1) n')%list
  end.

(** The world in which attempt [a] calls the scraper, from the world at
    the top of its iteration. *)
Definition entering (a : Z) (w : world) : world :=
  snd ((if 0 <? a then sleep (2000 * a) else ret tt) w).

(** How attempt [a + n] ends, from the world at the top of iteration
    [a], when the attempts before it neither left the loop nor were the
    last. *)
Fixpoint attempt_outcome (env : environment) (keyword : string) (a : Z) (n : nat)
    (w : world) : outcome (list product) :=
  match n with
  | O => fst (scrapeWithPuppeteer env keyword (entering a w))
  | S n' =>
      attempt_outcome env keyword (a + 1) n'
                      (snd (scrapeWithPuppeteer env keyword (entering a w)))
  end.

(** An attempt that gives no record: it throws or returns [[]]. *)
Definition no_records (o : outcome (list product)) : Prop :=
  match o with
  | Returned (_ :: _) => False
  | _ => True
  end.

Definition thrown {A} (o : outcome A) : bool :=
  match o with
  | Thrown _ => true
  | Returned _ => false
  end.

End Handler.

(** ** Sample documents and environments *)
Module Fixtures.
Import Effects Dom.

(** One result with a title and a price and no product link. *)
Definition listing : node :=
  Element "html" []
    [Element "body" []
       [Element "div" [("data-asin", "B01"); ("class", "s-result-item")]
          [Element "h2" [] [Element "span" [] [Text " Laptop 14 "]];
           Element "span" [("class", "a-price")]
             [Element "span" [("class", "a-offscreen")] [Text "$499.00"]]]]].

(** One result holder with neither title nor price. *)
Definition bare : node :=
  Element "html" [] [Element "body" [] [Element "div" [("data-asin", "")] []]].

(** The bot-check page. *)
Definition challenge : node :=
  Element "html" []
    [Element "body" []
       [Element "form" [] [Element "input" [("id", "captchacharacters")] []]]].

(** A page that shows [d] from the end of the navigation on. *)
Definition page_of (d : node) : page_script :=
  PageScript None None None d None d d
             (Error "Waiting for selector `[data-asin]` failed").

(** A page whose navigation fails. *)
Definition unreachable : page_script :=
  PageScript None None (Some (Error "Navigation timeout of 30000 ms exceeded"))
             bare None bare bare (Error "Waiting for selector `[data-asin]` failed").

(** Every page shows [d], every fetch answers a body parsed as [f],
    every draw is [0.5]. *)
Definition site (d f : node) : environment :=
  Environment (fun _ => None) (fun _ => page_of d)
              (fun _ => FetchScript None (JS.JString "<html></html>") f)
              (fun _ => S754_finite false 4503599627370496 (-53))
              (fun s => s) (fun s => Some s) (fun s => s).

(** The same, every navigation failing. *)
Definition down (f : node) : environment :=
  Environment (fun _ => None) (fun _ => unreachable)
              (fun _ => FetchScript None (JS.JString "<html></html>") f)
              (fun _ => S754_finite false 4503599627370496 (-53))
              (fun s => s) (fun s => Some s) (fun s => s).

End Fixtures.

(** ** Traffic of several clients through the rate limiter *)
Module Traffic.
Import RateLimit.

(** The verdicts the requests of [ip] get in a run. *)
Fixpoint verdicts_for (ip : string) (reqs : list (Z * string)) (st : state)
    : list verdict :=
  match reqs with
  | [] => []
  | (now, c) :: rest =>
      let '(v, st1) := request now c st in
      if decide (c = ip) then v :: verdicts_for ip rest st1
      else verdicts_for ip rest st1
  end.

(** Requests arrive in the order of their instants, none before [t0]. *)
Fixpoint chronological (t0 : Z) (reqs : list (Z * string)) : Prop :=
  match reqs with
  | [] => True
  | (now, _) :: rest => t0 <= now /\ chronological now rest
  end.

(** What [ip] can observe of a state: its entry and its own callbacks. *)
Definition own (ip : string) (st : state) : option Z * list (Z * string) :=
  (requestCounts st !! ip, filter (fun t : Z * string => snd t = ip) (timers st)).

(** What the callbacks due at [now] make of it. *)
Definition settle (now : Z) (o : option Z * list (Z * string))
    : option Z * list (Z * string) :=
  (if decide (Exists (fun t : Z * string => fst t <= now) (snd o)) then None else fst o,
   filter (fun t : Z * string => ~ fst t <= now) (snd o)).

(** The same, once the callbacks due at [now] have run. *)
Definition view (ip : string) (now : Z) (st : state) : option Z * list (Z * string) :=
  own ip (run_timers now st).

(** Two states that [ip] cannot tell apart from [t0] on. *)
Definition alike (ip : string) (t0 : Z) (s1 s2 : state) : Prop :=
  forall now, t0 <= now -> view ip now s1 = view ip now s2.

(** Every entry of the map is between 1 and 11. *)
Definition bounded_counts (st : state) : Prop :=
  forall ip c, requestCounts st !! ip = Some c -> 1 <= c <= 11.

(** Every entry has a callback of its own pending. *)
Definition covered (st : state) : Prop :=
  forall ip, is_Some (requestCounts st !! ip) -> exists d, (d, ip) ∈ timers st.

(** Two clients, their requests interleaved. *)
Definition crowd : list (Z * string) :=
  [(0, "203.0.113.7"); (10, "198.51.100.2"); (20, "203.0.113.7");
   (59990, "198.51.100.2"); (60005, "203.0.113.7"); (60015, "198.51.100.2");
   (60020, "203.0.113.7")].

End Traffic.

(** ** More sample environments *)
Module Samples.
Import Effects Dom.

(** The first launch fails, the later ones succeed. *)
Definition flaky : environment :=
  Environment (fun n => match n with
                        | O => Some (Error "Failed to launch the browser process")
                        | S _ => None
                        end)
              (fun _ => Fixtures.page_of Fixtures.listing)
              (fun _ => FetchScript None (JS.JString "<html></html>") Fixtures.listing)
              (fun _ => S754_finite false 4503599627370496 (-53))
              (fun s => s) (fun s => Some s) (fun s => s).

(** Two results with product links, one of them without a price. *)
Definition shelf : node :=
  Element "html" []
    [Element "body" []
       [Element "div" [("data-asin", "B01")]
          [Element "h2" []
             [Element "a" [("href", "/Laptop-14/dp/B01/ref=sr_1_1")]
                [Element "span" [] [Text "Laptop 14"]]];
           Element "span" [("class", "a-price")] [Element "span" [] [Text "$499.00"]];
           Element "i" [("aria-label", "4.5 out of 5 stars")] []];
        Element "div" [("data-asin", "B02")]
          [Element "h2" [] [Element "span" [] [Text "Laptop 15"]]]]].

(** The fetch is answered 503. *)
Definition blocked : environment :=
  Environment (fun _ => None) (fun _ => Fixtures.unreachable)
              (fun _ => FetchScript (Some (JsError "Request failed with status code 503"
                                                   (Some 503)))
                                    (JS.JString "") Fixtures.bare)
              (fun _ => S754_finite false 4503599627370496 (-53))
              (fun s => s) (fun s => Some s) (fun s => s).

(** The first page shows nothing usable, the second one shows [shelf]. *)
Definition second_time : environment :=
  Environment (fun _ => None)
              (fun n => match n with
                        | O => Fixtures.page_of Fixtures.bare
                        | S _ => Fixtures.page_of shelf
                        end)
              (fun _ => FetchScript None (JS.JString "<html></html>") Fixtures.bare)
              (fun _ => S754_finite false 4503599627370496 (-53))
              (fun s => s) (fun s => Some s) (fun s => s).

(** The first navigation fails; the later pages show nothing usable. *)
Definition recovering : environment :=
  Environment (fun _ => None)
              (fun n => match n with
                        | O => Fixtures.unreachable
                        | S _ => Fixtures.page_of Fixtures.bare
                        end)
              (fun _ => FetchScript None (JS.JString "<html></html>") Fixtures.listing)
              (fun _ => S754_finite false 4503599627370496 (-53))
              (fun s => s) (fun s => Some s) (fun s => s).

(** The fetch is answered 200 with a JSON body. *)
Definition throttled : environment :=
  Environment (fun _ => None) (fun _ => Fixtures.unreachable)
              (fun _ => FetchScript None
                          (JS.JObject [("error", JS.JString "throttled")])
                          Fixtures.listing)
              (fun _ => S754_finite false 4503599627370496 (-53))
              (fun s => s) (fun s => Some s) (fun s => s).

End Samples.

(** ** What the two scrapers have in common *)
Module Records.
Import Scrape.

(** The fields both scrapers read the same way. *)
Definition core (p : product) : option string * option string * option string :=
  (title p, price p, rating p).

(** A link on the origin of the site. *)
Definition on_origin (p : product) : Prop :=
  exists path, link p = Some ("https://www.amazon.com" +:+ path).

End Records.

(** ** Runs of the retry loop *)
Module Runs.
Import Effects Scrape Handler.

(** The world after attempt [a + n], from the world at the top of
    iteration [a], when the attempts before it neither left the loop nor
    were the last. *)
Fixpoint attempt_world (env : environment) (keyword : string) (a : Z) (n : nat)
    (w : world) : world :=
  let w1 := snd (scrapeWithPuppeteer env keyword (entering a w)) in
  match n with
  | O => w1
  | S n' => attempt_world env keyword (a + 1) n' w1
  end.

(** [lastError] after attempt [a + n] when no attempt from [a] on left
    the loop and the last one did not throw: the error of the latest
    attempt that threw, [acc] (its value at the top of iteration [a]) if
    none did. *)
Fixpoint last_thrown (env : environment) (keyword : string) (a : Z) (n : nat)
    (w : world) (acc : option js_error) : option js_error :=
  let r := scrapeWithPuppeteer env keyword (entering a w) in
  let acc1 := match fst r with
              | Thrown e => Some e
              | Returned _ => acc
              end in
  match n with
  | O => acc1
  | S n' => last_thrown env keyword (a + 1) n' (snd r) acc1
  end.

(** The waits of a trace, added up (ms). *)
Fixpoint waited (t : list event) : Z :=
  match t with
  | [] => 0
  | Sleep ms :: rest => ms + waited rest
  | _ :: rest => waited rest
  end.

(** A keyword the handler accepts: a non-empty string. *)
Definition usable (keyword : option query_value) : Prop :=
  exists a k, keyword = Some (QString (String a k)).

(** [error.message || 'Try different keywords'] *)
Definition details_of (e : js_error) : string :=
  match message e with
  | "" => "Try different keywords"
  | m => m
  end.

End Runs.

(** ** The application: the rate limiter in front of the handler

    [app.use] registers the rate limiter before the route, so a request
    to [/api/scrape] goes through it first and reaches the handler only
    when the limiter calls [next()]. *)
Module App.
Import Effects Handler.

Inductive reply : Type :=
| Limited                              (* 429 from the rate limiter *)
| Answered (r : outcome response).     (* what the handler did *)

Definition serve (env : environment) (now : Z) (ip : string)
    (keyword retry : option query_value) (st : RateLimit.state) (w : world)
    : reply * RateLimit.state * world :=
  match RateLimit.request now ip st with
  | (RateLimit.TooManyRequests, st1) => (Limited, st1, w)
  | (RateLimit.Next, st1) =>
      let '(o, w1) := handler env keyword retry w in
      (Answered o, st1, w1)
  end.

End App.

(** * Properties *)

(** ** The header generator *)
Module HeadersFacts.
Import Headers.

(** *** Binary digits *)
Lemma digits2_pos_bounds (m : positive) :
  2 ^ (Z.pos (digits2_pos m) - 1) <= Z.pos m < 2 ^ Z.pos (digits2_pos m).
Proof.
  induction m as [m IH|m IH|]; cbn [digits2_pos].
  - rewrite Pos2Z.inj_succ.
    replace (Z.succ (Z.pos (digits2_pos m)) - 1) with (Z.succ (Z.pos (digits2_pos m) - 1)) by lia.
    rewrite !Z.pow_succ_r by lia. lia.
  - rewrite Pos2Z.inj_succ.
    replace (Z.succ (Z.pos (digits2_pos m)) - 1) with (Z.succ (Z.pos (digits2_pos m) - 1)) by lia.
    rewrite !Z.pow_succ_r by lia. lia.
  - simpl. lia.
Qed.

Lemma digits2_pos_le (m : positive) (k : Z) :
  Z.pos m < 2 ^ k -> Z.pos (digits2_pos m) <= k.
Proof.
  intros Hlt. destruct (digits2_pos_bounds m) as [Hlo _].
  destruct (Z_lt_le_dec k 0) as [Hneg|Hk].
  - rewrite Z.pow_neg_r in Hlt by done. lia.
  - assert (H : 2 ^ (Z.pos (digits2_pos m) - 1) < 2 ^ k) by lia.
    apply Z.pow_lt_mono_r_iff in H; lia.
Qed.

(** *** Shifting right with a record of what is lost *)

Lemma shr_1_shifted (m0 k : Z) (mrs : shr_record) :
  0 <= m0 -> 0 <= k ->
  shifted m0 k mrs -> shifted m0 (k + 1) (shr_1 mrs).
Proof.
  intros Hm0 Hk [Hm Hr]. destruct mrs as [m r s]. cbn [shr_m shr_r] in *.
  assert (Hpow : 0 < 2 ^ k) by (apply Z.pow_pos_nonneg; lia).
  assert (Hm_nonneg : 0 <= m) by (subst m; apply Z.div_pos; lia).
  pose proof (Z.div_mod m0 (2 ^ k) ltac:(lia)) as Hdm.
  pose proof (Z.mod_pos_bound m0 (2 ^ k) Hpow) as Hbound.
  rewrite <- Hm in Hdm.
  assert (Hpow1 : 2 ^ (k + 1) = 2 * 2 ^ k) by (rewrite Z.pow_add_r by lia; lia).
  assert (Hhalf : forall q b, m = 2 * q + b -> 0 <= b < 2 ->
            m0 / 2 ^ (k + 1) = q /\ m0 mod 2 ^ (k + 1) = b * 2 ^ k + m0 mod 2 ^ k).
  { intros q b Hq Hb. 
    assert (Heq : m0 = 2 ^ (k + 1) * q + (b * 2 ^ k + m0 mod 2 ^ k)) by nia.
    assert (Hrange : 0 <= b * 2 ^ k + m0 mod 2 ^ k < 2 ^ (k + 1)) by nia.
    split.
    - symmetry. eapply Z.div_unique_pos; [exact Hrange | exact Heq].
    - symmetry. eapply Z.mod_unique_pos; [exact Hrange | exact Heq]. }
  unfold shifted.
  destruct m as [|[p|p|]|p]; cbn [shr_1 shr_m shr_r]; try lia.
  - destruct (Hhalf 0 0 ltac:(lia) ltac:(lia)) as [-> _]. split; [done|]. done.
  - destruct (Hhalf (Z.pos p) 1 ltac:(lia) ltac:(lia)) as [-> ->]. split; [done|]. intros _. lia.
  - destruct (Hhalf (Z.pos p) 0 ltac:(lia) ltac:(lia)) as [-> _]. split; [done|]. done.
  - destruct (Hhalf 0 1 ltac:(lia) ltac:(lia)) as [-> ->]. split; [done|]. intros _. lia.
Qed.

Lemma iter_pos_shifted (m0 : Z) (p : positive) :
  0 <= m0 ->
  forall (k : Z) (mrs : shr_record),
  0 <= k -> shifted m0 k mrs -> shifted m0 (k + Z.pos p) (SpecFloat.iter_pos shr_1 p mrs).
Proof.
  intros Hm0. induction p as [p IH|p IH|]; intros k mrs Hk Hs; cbn [SpecFloat.iter_pos].
  - replace (k + Z.pos p~1) with (k + 1 + Z.pos p + Z.pos p) by lia.
    apply IH; [lia|]. apply IH; [lia|]. by apply shr_1_shifted.
  - replace (k + Z.pos p~0) with (k + Z.pos p + Z.pos p) by lia.
    apply IH; [lia|]. by apply IH.
  - by apply shr_1_shifted.
Qed.

Lemma round_nearest_even_le (mrs : shr_record) :
  shr_m mrs <= round_nearest_even (shr_m mrs) (loc_of_shr_record mrs)
    <= shr_m mrs + (if shr_r mrs then 1 else 0).
Proof.
  destruct mrs as [q [] []]; cbn [shr_m shr_r loc_of_shr_record round_nearest_even];
    try lia.
  destruct (Z.even q); lia.
Qed.

(** Shifting an exact mantissa right, then rounding to nearest: the
    exponent grows by the shift, truncation does not exceed the value,
    rounding exceeds it by at most half a unit. *)
Lemma shr_exact_bound (m0 e0 n : Z) :
  0 <= m0 ->
  let mrs := fst (shr (shr_record_of_loc m0 loc_Exact) e0 n) in
  let e1 := snd (shr (shr_record_of_loc m0 loc_Exact) e0 n) in
  let q := round_nearest_even (shr_m mrs) (loc_of_shr_record mrs) in
  e1 - e0 = Z.max 0 n /\
  0 <= shr_m mrs /\
  shr_m mrs * 2 ^ (e1 - e0) <= m0 /\
  0 <= q /\
  2 * (q * 2 ^ (e1 - e0)) <= 2 * m0 + 2 ^ (e1 - e0).
Proof.
  intros Hm0. unfold shr.
  destruct n as [|p|p]; cbn [fst snd shr_record_of_loc shr_m loc_of_shr_record
                               round_nearest_even];
    try (rewrite Z.sub_diag; simpl; lia).
  assert (Hs : shifted m0 (0 + Z.pos p)
                 (SpecFloat.iter_pos shr_1 p (Build_shr_record m0 false false))).
  { apply iter_pos_shifted; [done | lia |].
    split; cbn [shr_m shr_r]; [by rewrite Z.div_1_r | done]. }
  rewrite Z.add_0_l in Hs. destruct Hs as [Hq Hr].
  set (mrs := SpecFloat.iter_pos shr_1 p (Build_shr_record m0 false false)) in *.
  pose proof (round_nearest_even_le mrs) as Hround.
  replace (e0 + Z.pos p - e0) with (Z.pos p) by lia.
  assert (Hpow : 0 < 2 ^ Z.pos p) by (apply Z.pow_pos_nonneg; lia).
  pose proof (Z.div_mod m0 (2 ^ Z.pos p) ltac:(lia)) as Hdm.
  pose proof (Z.mod_pos_bound m0 (2 ^ Z.pos p) Hpow) as Hbound.
  rewrite <- Hq in Hdm.
  assert (Hq0 : 0 <= shr_m mrs) by (rewrite Hq; apply Z.div_pos; lia).
  split; [lia|]. split; [done|]. split; [nia|]. split; [lia|].
  destruct (shr_r mrs).
  - specialize (Hr eq_refl). nia.
  - nia.
Qed.

(** A product rounded to binary64 stays below a bound that the exact
    product, half a unit of the rounding added, does not exceed. *)
Lemma binary_round_aux_below (mx ex bound : Z) :
  0 <= mx ->
  2 * mx + 2 ^ Z.max 0 (fexp 53 1024 (Zdigits2 mx + ex) - ex) <= 2 * bound ->
  match binary_round_aux 53 1024 false mx ex loc_Exact with
  | S754_finite s m e => s = false /\ ex <= e /\ Z.pos m * 2 ^ (e - ex) <= bound
  | _ => True
  end.
Proof.
  intros Hmx Hbound. unfold binary_round_aux, shr_fexp.
  set (n1 := fexp 53 1024 (Zdigits2 mx + ex) - ex) in *.
  destruct (shr_exact_bound mx ex n1 Hmx) as (He1 & _ & _ & Hq0 & Hq).
  destruct (shr (shr_record_of_loc mx loc_Exact) ex n1) as [mrs1 e1].
  cbn [fst snd] in *.
  set (q := round_nearest_even (shr_m mrs1) (loc_of_shr_record mrs1)) in *.
  set (n2 := fexp 53 1024 (Zdigits2 q + e1) - e1).
  destruct (shr_exact_bound q e1 n2 Hq0) as (He2 & _ & Hm2 & _ & _).
  destruct (shr (shr_record_of_loc q loc_Exact) e1 n2) as [mrs2 e2].
  cbn [fst snd] in *.
  destruct (shr_m mrs2) as [|m|m]; [done| |done].
  destruct (e2 <=? 1024 - 53); [|done].
  split; [done|]. split; [lia|].
  replace (e2 - ex) with ((e2 - e1) + (e1 - ex)) by lia.
  rewrite Z.pow_add_r by lia.
  assert (0 < 2 ^ (e1 - ex)) by (apply Z.pow_pos_nonneg; lia).
  assert (0 < 2 ^ (e2 - e1)) by (apply Z.pow_pos_nonneg; lia).
  rewrite He1 in *. nia.
Qed.

(** *** Draws *)
Lemma draw_cases (r : spec_float) :
  is_draw r = true ->
  match r with
  | S754_zero _ => True
  | S754_finite s m e => s = false /\ -1074 <= e <= -53 /\ Z.pos (digits2_pos m) <= 53
  | _ => False
  end.
Proof.
  unfold is_draw. intros [[Hv Hle]%andb_prop Hlt]%andb_prop.
  destruct r as [s|s| |s m e].
  - exact I.
  - destruct s; cbv in Hle; cbv in Hlt; congruence.
  - cbv in Hle. congruence.
  - assert (s = false) as ->.
    { destruct s; [cbv in Hle; congruence | reflexivity]. }
    split; [reflexivity|].
    unfold valid_binary, bounded, canonical_mantissa, fexp, emin in Hv.
    apply andb_prop in Hv as [Hcanon _]. apply Z.eqb_eq in Hcanon.
    destruct (digits2_pos_bounds m) as [Hlo _].
    unfold SFltb, SFcompare, one in Hlt.
    revert Hlt. destruct (Z.compare_spec e (-52)) as [Heq|Hlt|Hgt].
    + rewrite Pos.compare_cont_spec.
      destruct (Pos.compare_spec m 4503599627370496) as [| Hm |];
        cbn [Pos.switch_Eq]; try congruence.
      intros _. exfalso.
      assert (Z.pos (digits2_pos m) = 53) as Hd by (clear - Hcanon Heq; lia).
      rewrite Hd in Hlo. change (2 ^ (53 - 1)) with 4503599627370496 in Hlo.
      apply Pos2Z.pos_lt_pos in Hm. clear - Hlo Hm. lia.
    + intros _. clear - Hcanon Hlt. lia.
    + congruence.
Qed.

(** [Math.floor(Math.random() * 10)] is one of 0, ..., 9. *)
Lemma floor_draw_times_ten (r : spec_float) :
  is_draw r = true -> 0 <= floor (mul r ten) <= 9.
Proof.
  intros Hdraw. apply draw_cases in Hdraw.
  destruct r as [s|s| |s m e]; [unfold mul, SFmul, ten, floor; lia | tauto | tauto |].
  destruct Hdraw as (-> & He & Hd).
  change (mul (S754_finite false m e) ten)
    with (binary_round_aux 53 1024 false (Z.pos (m * 5629499534213120)) (e + -49) loc_Exact).
  destruct (digits2_pos_bounds m) as [_ Hm].
  assert (Hpow_e : 0 < 2 ^ (- e)) by (apply Z.pow_pos_nonneg; lia).
  assert (Hm1 : Z.pos m < 2 ^ (- e)).
  { eapply Z.lt_le_trans; [exact Hm|]. apply Z.pow_le_mono_r; lia. }
  assert (Hprod : Z.pos (m * 5629499534213120) = Z.pos m * 5629499534213120)
    by apply Pos2Z.inj_mul.
  assert (Hdp : Z.pos (digits2_pos (m * 5629499534213120)) <= Z.pos (digits2_pos m) + 53).
  { apply digits2_pos_le. rewrite Hprod, Z.pow_add_r by lia.
    change (2 ^ 53) with 9007199254740992. nia. }
  set (n1 := fexp 53 1024 (Zdigits2 (Z.pos (m * 5629499534213120)) + (e + -49)) - (e + -49)).
  assert (Hn1 : Z.max 0 n1 <= 53).
  { unfold n1, fexp, emin. cbn [Zdigits2]. lia. }
  assert (Hhalf : 2 ^ Z.max 0 n1 <= 9007199254740992).
  { change 9007199254740992 with (2 ^ 53). apply Z.pow_le_mono_r; lia. }
  pose proof (binary_round_aux_below (Z.pos (m * 5629499534213120)) (e + -49)
                (5629499534213120 * 2 ^ (- e) - 1) ltac:(lia)) as Hround.
  fold n1 in Hround. specialize (Hround ltac:(nia)).
  destruct (binary_round_aux 53 1024 false _ _ loc_Exact) as [s|s| |s m2 e2];
    [by destruct s | done | done |].
  destruct Hround as (-> & He2 & Hval).
  unfold floor.
  assert (Hsplit : 2 ^ (- e) * 562949953421312 = 2 ^ (- (e + -49))).
  { replace (- (e + -49)) with (- e + 49) by lia. rewrite Z.pow_add_r by lia. done. }
  destruct (Z.leb_spec 0 e2) as [Hpos|Hneg].
  - assert (Hpow2 : 0 < 2 ^ e2) by (apply Z.pow_pos_nonneg; lia).
    replace (e2 - (e + -49)) with (e2 + - (e + -49)) in Hval by lia.
    rewrite Z.pow_add_r, <- Hsplit in Hval by lia. nia.
  - assert (Hpow2 : 0 < 2 ^ (- e2)) by (apply Z.pow_pos_nonneg; lia).
    assert (Hpow3 : 0 < 2 ^ (e2 - (e + -49))) by (apply Z.pow_pos_nonneg; lia).
    assert (Hsplit2 : 2 ^ (- (e + -49)) = 2 ^ (e2 - (e + -49)) * 2 ^ (- e2)).
    { rewrite <- Z.pow_add_r by lia. f_equal. lia. }
    split; [apply Z.div_pos; lia|].
    assert (Z.pos m2 / 2 ^ (- e2) < 10); [|lia].
    apply Z.div_lt_upper_bound; [lia|]. nia.
Qed.

(** C8: for every draw, the version is one of 115, ..., 124, and the
    user-agent string and the [sec-ch-ua] header (for both Chrome brands)
    carry that same version. *)
Theorem version_consistent (r : spec_float) :
  is_draw r = true ->
  let headers := getAmazonHeaders r in
  let v := chromeVersion r in
  115 <= v <= 124 /\
  header "user-agent" headers ≫= user_agent_version = Some v /\
  header "sec-ch-ua" headers ≫= client_hint_version "Google Chrome" = Some v /\
  header "sec-ch-ua" headers ≫= client_hint_version "Chromium" = Some v.
Proof.
  intros Hdraw. pose proof (floor_draw_times_ten r Hdraw) as Hd.
  cbv zeta. unfold getAmazonHeaders, chromeVersion.
  set (d := floor (mul r ten)) in *. clearbody d. clear Hdraw.
  split; [lia|].
  assert (Hcases : d = 0 \/ d = 1 \/ d = 2 \/ d = 3 \/ d = 4 \/
                   d = 5 \/ d = 6 \/ d = 7 \/ d = 8 \/ d = 9) by lia.
  clear Hd.
  repeat (destruct Hcases as [->|Hcases]); try subst d;
    vm_compute; repeat split; reflexivity.
Qed.

(** The draw 0.5 gives version 120. *)
Lemma version_consistent_witness :
  let headers := getAmazonHeaders (S754_finite false 4503599627370496 (-53)) in
  chromeVersion (S754_finite false 4503599627370496 (-53)) = 120 /\
  header "user-agent" headers ≫= user_agent_version = Some 120 /\
  header "sec-ch-ua" headers ≫= client_hint_version "Google Chrome" = Some 120 /\
  header "sec-ch-ua" headers ≫= client_hint_version "Chromium" = Some 120.
Proof.
  split; [vm_compute; reflexivity|].
  apply (version_consistent (S754_finite false 4503599627370496 (-53))).
  vm_compute; reflexivity.
Defined.

End HeadersFacts.

(** ** Rate limiting *)
Module RateLimitFacts.
Import RateLimit.

Lemma lookup_foldl_delete (l : list (Z * string)) (m : gmap string Z) (ip : string) :
  Forall (fun t : Z * string => snd t <> ip) l ->
  foldl (fun m t => delete (snd t) m) m l !! ip = m !! ip.
Proof.
  revert m. induction l as [|[d c] l IH]; intros m Hall; simpl; [done|].
  inversion Hall as [|? ? Hc Hl]; subst. simpl in Hc.
  rewrite IH by done. by apply lookup_delete_ne.
Qed.

(** Callbacks of [ip] that are not yet due leave the entry of [ip] alone. *)
Lemma run_timers_not_due (now : Z) (ip : string) (st : state) :
  Forall (fun t : Z * string => snd t = ip -> now < fst t) (timers st) ->
  requestCounts (run_timers now st) !! ip = requestCounts st !! ip.
Proof.
  intros Hall. unfold run_timers; simpl.
  apply lookup_foldl_delete.
  apply Forall_forall. intros [d c] Hin Hc; simpl in *.
  apply list_elem_of_filter in Hin as [Hdue Hin]; simpl in Hdue.
  rewrite Forall_forall in Hall.
  specialize (Hall (d, c) Hin Hc). simpl in Hall. lia.
Qed.

Lemma run_timers_pending (now : Z) (P : Z * string -> Prop) (st : state) :
  Forall P (timers st) -> Forall P (timers (run_timers now st)).
Proof.
  intros Hall. unfold run_timers; simpl.
  apply Forall_forall. intros t Hin.
  apply list_elem_of_filter in Hin as [_ Hin].
  rewrite Forall_forall in Hall. by apply Hall.
Qed.

(** What the middleware does, by the count it reads. *)
Lemma middleware_deny (now : Z) (ip : string) (st : state) (c : Z) :
  requestCounts st !! ip = Some c -> 10 < c ->
  middleware now ip st = (TooManyRequests, st).
Proof.
  intros Hc Hlt. unfold middleware. rewrite Hc; simpl.
  destruct (Z.ltb_spec 10 c); [done | lia].
Qed.

Lemma middleware_admit (now : Z) (ip : string) (st : state) :
  default 0 (requestCounts st !! ip) <= 10 ->
  middleware now ip st =
    (Next, mkState (<[ip := default 0 (requestCounts st !! ip) + 1]> (requestCounts st))
                   (timers st ++ [(now + 60000, ip)])).
Proof.
  intros Hle. unfold middleware.
  destruct (Z.ltb_spec 10 (default 0 (requestCounts st !! ip))); [lia | done].
Qed.

Lemma default_count_after (n : nat) :
  default 0 (count_after n) = Z.min (Z.of_nat n) 11.
Proof. destruct n; [done|]. reflexivity. Qed.

Lemma count_after_succ (n : nat) :
  count_after (S n) = Some (Z.min (Z.of_nat n) 11 + 1) \/
  (10 < Z.min (Z.of_nat n) 11 /\ count_after (S n) = count_after n).
Proof.
  destruct (decide (n <= 10)%nat) as [Hle|Hgt].
  - left. unfold count_after. f_equal. lia.
  - right. split; [lia|]. destruct n as [|n]; [lia|].
    unfold count_after. f_equal. lia.
Qed.

Lemma request_in_window (t0 now : Z) (ip c : string) (n : nat) (st : state) :
  t0 <= now < t0 + 60000 ->
  window_inv t0 ip n st ->
  window_inv t0 ip (if decide (c = ip) then S n else n) (snd (request now c st)) /\
  (c = ip -> fst (request now c st) = if decide (n <= 10)%nat then Next else TooManyRequests).
Proof.
  intros Hnow [Hcnt Htim].
  assert (Hkeep : requestCounts (run_timers now st) !! ip = count_after n).
  { rewrite run_timers_not_due; [done|].
    eapply Forall_impl; [exact Htim|]. intros t Ht Hc. specialize (Ht Hc). lia. }
  assert (Htim' : Forall (fun t : Z * string => snd t = ip -> t0 + 60000 <= fst t)
                    (timers (run_timers now st))) by by apply run_timers_pending.
  unfold request. set (st1 := run_timers now st) in *.
  unfold middleware, window_inv.
  destruct (Z.ltb_spec 10 (default 0 (requestCounts st1 !! c))) as [Hgt|Hle];
    cbn [fst snd requestCounts timers].
  - (* denied: the state is the one the callbacks left *)
    destruct (decide (c = ip)) as [->|Hne]; [|by split].
    rewrite Hkeep, default_count_after in Hgt.
    split.
    + split; [|done]. rewrite Hkeep.
      destruct (count_after_succ n) as [Heq|[_ Heq]]; [|done].
      unfold count_after in *. destruct n; [lia|]. f_equal. lia.
    + intros _. destruct (decide (n <= 10)%nat); [lia|done].
  - destruct (decide (c = ip)) as [->|Hne].
    + rewrite Hkeep, default_count_after in *. split.
      * split.
        -- rewrite lookup_insert_eq.
           destruct (count_after_succ n) as [Heq|[Hlt _]]; [done|lia].
        -- apply Forall_app; split; [done|].
           constructor; [cbn [fst snd]; lia | constructor].
      * intros _. destruct (decide (n <= 10)%nat); [done | lia].
    + split; [|done]. split.
      * by rewrite lookup_insert_ne.
      * apply Forall_app; split; [done|].
        constructor; [cbn [fst snd]; congruence | constructor].
Qed.

Lemma run_in_window (t0 : Z) (ip : string) (reqs : list (Z * string)) :
  forall (n : nat) (st : state),
  in_window t0 reqs ->
  window_inv t0 ip n st ->
  window_inv t0 ip (n + requests_of ip reqs) (snd (run reqs st)).
Proof.
  induction reqs as [|[now c] reqs IH]; intros n st Hwin Hinv.
  - simpl. unfold requests_of; simpl. by rewrite Nat.add_0_r.
  - inversion Hwin as [|? ? Hnow Hrest]; subst. simpl in Hnow.
    destruct (request_in_window t0 now ip c n st Hnow Hinv) as [Hinv1 _].
    simpl. destruct (request now c st) as [v st1] eqn:Hreq. simpl in Hinv1.
    specialize (IH _ st1 Hrest Hinv1).
    destruct (run reqs st1) as [vs st2] eqn:Hrun. simpl in *.
    unfold requests_of in *. rewrite filter_cons. simpl.
    destruct (decide (c = ip)) as [->|Hne]; simpl.
    + by rewrite Nat.add_succ_r.
    + done.
Qed.

Lemma fresh_window_inv (t0 : Z) (ip : string) (st : state) :
  fresh ip st -> window_inv t0 ip 0 st.
Proof.
  intros [Hnone Htim]. split; [done|].
  eapply Forall_impl; [exact Htim|]. simpl. intros t Hne Heq. congruence.
Qed.

(** C2, as the code has it: for a client that has neither an entry nor
    a callback pending when a window opens, the first eleven requests
    within the window are admitted, the count going up by one each time,
    and every later one is denied; the middleware leaves the state as it
    found it when it denies, so the count stays at 11. *)
Theorem twelfth_request_denied (t0 now : Z) (ip : string)
    (reqs : list (Z * string)) (st : state) :
  fresh ip st ->
  in_window t0 reqs ->
  t0 <= now < t0 + 60000 ->
  let st1 := snd (run reqs st) in
  ((requests_of ip reqs <= 10)%nat ->
     fst (request now ip st1) = Next /\
     requestCounts (snd (request now ip st1)) !! ip
       = Some (Z.of_nat (requests_of ip reqs) + 1)) /\
  ((11 <= requests_of ip reqs)%nat ->
     requestCounts st1 !! ip = Some 11 /\
     request now ip st1 = (TooManyRequests, run_timers now st1) /\
     middleware now ip (run_timers now st1) = (TooManyRequests, run_timers now st1) /\
     requestCounts (snd (request now ip st1)) !! ip = Some 11).
Proof.
  intros Hfresh Hwin Hnow st1.
  pose proof (run_in_window t0 ip reqs 0 st Hwin (fresh_window_inv t0 ip st Hfresh)) as Hinv.
  rewrite Nat.add_0_l in Hinv. fold st1 in Hinv.
  set (n := requests_of ip reqs) in *.
  destruct (request_in_window t0 now ip ip n st1 Hnow Hinv) as [[Hcnt _] Hv].
  rewrite decide_True in Hcnt by done. specialize (Hv eq_refl).
  destruct Hinv as [Hcnt1 Htim1].
  assert (Hkeep : requestCounts (run_timers now st1) !! ip = count_after n).
  { rewrite run_timers_not_due; [done|].
    eapply Forall_impl; [exact Htim1|]. intros t Ht Hc. specialize (Ht Hc). lia. }
  split.
  - intros Hle. rewrite decide_True in Hv by done. split; [done|].
    rewrite Hcnt. unfold count_after. f_equal. lia.
  - intros Hge.
    assert (Heleven : count_after n = Some 11).
    { destruct n as [|n']; [lia|]. unfold count_after. f_equal. lia. }
    assert (Hdeny : middleware now ip (run_timers now st1)
                    = (TooManyRequests, run_timers now st1)).
    { apply (middleware_deny _ _ _ 11); [congruence | lia]. }
    split; [congruence|]. split; [exact Hdeny|]. split; [exact Hdeny|].
    unfold request. rewrite Hdeny. cbn [snd]. by rewrite Hkeep.
Qed.

Lemma twelfth_request_denied_witness :
  fst (request 11000 client (snd (run (burst 11) initial))) = TooManyRequests /\
  requestCounts (snd (request 11000 client (snd (run (burst 11) initial)))) !! client
    = Some 11.
Proof.
  assert (Hfresh : fresh client initial) by (split; [reflexivity | constructor]).
  assert (Hwin : in_window 0 (burst 11))
    by (unfold in_window, burst; simpl; repeat constructor; simpl; lia).
  assert (Hnow : 0 <= 11000 < 0 + 60000) by lia.
  destruct (twelfth_request_denied 0 11000 client (burst 11) initial Hfresh Hwin Hnow)
    as [_ H].
  destruct H as (_ & Hreq & _ & Hcnt); [vm_compute; lia|].
  split; [by rewrite Hreq | exact Hcnt].
Defined.

(** C2 as stated fails: after ten admitted requests inside the window,
    the eleventh is admitted too. *)
Lemma eleventh_request_admitted :
  fst (run (burst 10) initial) = replicate 10 Next /\
  in_window 0 (burst 10 ++ [(10000, client)]) /\
  fst (request 10000 client (snd (run (burst 10) initial))) <> TooManyRequests.
Proof.
  split; [by vm_compute|]. split.
  - unfold in_window, burst; simpl; repeat constructor; simpl; lia.
  - by vm_compute.
Qed.

(** Why the client must have no callback pending when the window opens:
    a callback armed before deletes the entry inside the window, and the
    count starts again.  Requests at 0 ms and 59000 ms; eleven more from
    60001 ms on, one per second, all admitted; the request at 119000 ms,
    the twelfth of the window that opened at 60001 ms, is admitted with
    count 1. *)
Example pending_callback_restarts_count :
  let reqs := ([(0, client); (59000, client)]
               ++ map (fun k : nat => (60001 + 1000 * Z.of_nat k, client)) (seq 0 11))%list in
  let st := snd (run reqs initial) in
  fst (run reqs initial) = replicate 13 Next /\
  requestCounts st !! client = Some 11 /\
  119000 < 60001 + 60000 /\
  fst (request 119000 client st) = Next /\
  requestCounts (snd (request 119000 client st)) !! client = Some 1.
Proof. by vm_compute. Qed.

(** C7 on the code: every admitted request arms its own callback, so a
    callback armed in an earlier window cuts a later one short.  Requests
    at 0 ms and 59000 ms; the entry goes at 60000 ms; the request at
    60001 ms opens a new window with count 1; the callback of the second
    request removes that entry at 119000 ms, 1001 ms early. *)
Theorem stale_timer_truncates_window :
  let reqs := [(0, client); (59000, client); (60001, client)] in
  let st := snd (run reqs initial) in
  fst (run reqs initial) = [Next; Next; Next] /\
  requestCounts st !! client = Some 1 /\
  timers st = [(119000, client); (120001, client)] /\
  119000 < 60001 + 60000 /\
  requestCounts (run_timers 119000 st) !! client = None.
Proof. by vm_compute. Qed.

End RateLimitFacts.

(** ** Reasoning about computations *)
Module EffectsFacts.
Import Effects.

Section Stable.
Context {X : Type} (f : world -> X).

Lemma stable_ret {A} (a : A) : stable f (ret a).
Proof. by intros w. Qed.

Lemma stable_throw {A} (e : js_error) : stable f (@throw A e).
Proof. by intros w. Qed.

Lemma stable_bind {A B} (m : M A) (k : A -> M B) :
  stable f m -> (forall a, stable f (k a)) -> stable f (bind m k).
Proof.
  intros Hm Hk w. unfold bind. specialize (Hm w).
  destruct (m w) as [[a|e] w1]; simpl in *; [|done].
  by rewrite Hk.
Qed.

Lemma stable_try_catch {A} (m : M A) (h : js_error -> M A) :
  stable f m -> (forall e, stable f (h e)) -> stable f (try_catch m h).
Proof.
  intros Hm Hh w. unfold try_catch. specialize (Hm w).
  destruct (m w) as [[a|e] w1]; simpl in *; [done|].
  by rewrite Hh.
Qed.

Lemma stable_may_fail (o : option js_error) : stable f (may_fail o).
Proof. destruct o; [apply stable_throw | apply stable_ret]. Qed.

Lemma stable_if {A} (b : bool) (m1 m2 : M A) :
  stable f m1 -> stable f m2 -> stable f (if b then m1 else m2).
Proof. by destruct b. Qed.
End Stable.

(** Stability of a composed computation, [prim] settling its atoms. *)
Ltac stable_with prim :=
  repeat first
    [ prim
    | apply stable_may_fail
    | apply stable_ret
    | apply stable_throw
    | apply stable_if
    | apply stable_try_catch; [|intros ?]
    | apply stable_bind; [|intros ?] ].

Lemma ensures_ret {A} (a : A) (Q : A -> Prop) : Q a -> ensures (ret a) Q.
Proof. intros Ha w b w1 [= <- _]. exact Ha. Qed.

Lemma ensures_throw {A} (e : js_error) (Q : A -> Prop) : ensures (throw e) Q.
Proof. by intros w a w1. Qed.

Lemma ensures_bind {A B} (m : M A) (k : A -> M B) (Q : B -> Prop) :
  (forall a, ensures (k a) Q) -> ensures (bind m k) Q.
Proof.
  intros Hk w b w1. unfold bind.
  destruct (m w) as [[a|e] w2]; [apply Hk | done].
Qed.

Lemma ensures_try_catch {A} (m : M A) (h : js_error -> M A) (Q : A -> Prop) :
  ensures m Q -> (forall e, ensures (h e) Q) -> ensures (try_catch m h) Q.
Proof.
  intros Hm Hh w a w1. unfold try_catch.
  destruct (m w) as [[b|e] w2] eqn:Hmw.
  - intros [= <- <-]. by eapply Hm.
  - apply Hh.
Qed.

End EffectsFacts.

(** ** The scrapers *)
Module ScrapeFacts.
Import Effects EffectsFacts Scrape.

Lemma truthy_nonempty (v : option string) :
  JS.truthy v = true -> exists s, v = Some s /\ s <> "".
Proof. destruct v as [[|a s]|]; simpl; [done| |done]. intros _. by eexists. Qed.

Lemma valid_complete (p : product) : valid p = true -> complete p.
Proof.
  unfold valid. intros [Ht Hp]%andb_prop.
  destruct (truthy_nonempty _ Ht) as (t & ? & ?).
  destruct (truthy_nonempty _ Hp) as (c & ? & ?).
  by exists t, c.
Qed.

Lemma filter_valid_complete (ps : list product) : Forall complete (List.filter valid ps).
Proof.
  apply Forall_forall. intros p Hp.
  apply list_elem_of_In, filter_In in Hp as [_ Hv]. by apply valid_complete.
Qed.

Lemma scrapeWithPuppeteer_complete (env : environment) (keyword : string) :
  ensures (scrapeWithPuppeteer env keyword) (Forall complete).
Proof.
  unfold scrapeWithPuppeteer, page_steps.
  repeat (apply ensures_bind; intros ?).
  intros w ps w1. unfold evaluate.
  destruct (map_outcome _ _); [|done].
  intros [= <- _]. apply filter_valid_complete.
Qed.

Lemma scrapeWithAxios_complete (env : environment) (keyword : string) :
  ensures (scrapeWithAxios env keyword) (Forall complete).
Proof.
  unfold scrapeWithAxios.
  apply ensures_bind; intros _.
  apply ensures_try_catch; [|intros e; apply ensures_throw].
  apply ensures_bind; intros headers. apply ensures_bind; intros r.
  apply ensures_bind; intros [|]; [apply ensures_throw|].
  apply ensures_ret, filter_valid_complete.
Qed.

(** C3: whatever either scraper returns, every record of it has a
    non-empty title and a non-empty price. *)
Theorem backends_return_complete_records (env : environment) (keyword : string)
    (w : world) (ps : list product) :
  fst (scrapeWithPuppeteer env keyword w) = Returned ps \/
  fst (scrapeWithAxios env keyword w) = Returned ps ->
  Forall complete ps.
Proof.
  intros [H|H].
  - destruct (scrapeWithPuppeteer env keyword w) as [o w1] eqn:Hrun. simpl in H; subst o.
    by eapply scrapeWithPuppeteer_complete.
  - destruct (scrapeWithAxios env keyword w) as [o w1] eqn:Hrun. simpl in H; subst o.
    by eapply scrapeWithAxios_complete.
Qed.

Lemma backends_return_complete_records_witness :
  Forall complete
    [Product (Some "Laptop 14") (Some "$499.00") None None
             (Some "https://www.amazon.com/dp/B01")].
Proof.
  apply (backends_return_complete_records
           (Fixtures.site Fixtures.listing Fixtures.listing) "laptop" boot).
  left. vm_compute. reflexivity.
Defined.




Lemma getBrowser_page_calls (env : environment) : stable page_calls (Browser.getBrowser env).
Proof.
  intros w. unfold Browser.getBrowser, bind, get.
  destruct (browserInstance w); [done|]. simpl.
  unfold Browser.launch. by destruct (launch_failure env _).
Qed.











(** The text of [src/index.ts] alone, on a bot-check page that stays: the
    [try] block throws, and its page is open when it is left. *)
Example challenge_throws :
  let env := Fixtures.site Fixtures.challenge Fixtures.listing in
  fst (scrapeWithPuppeteer env "laptop" boot)
    = Thrown (Error "CAPTCHA verification required") /\
  open_pages (snd (scrapeWithPuppeteer env "laptop" boot)) = [0%nat].
Proof. split; vm_compute; reflexivity. Qed.

(** *** Links *)

(** C6 on the code: for a result without a product link the rendering
    scraper builds the link from [data-asin], the raw-fetch scraper
    leaves it undefined. *)
Theorem axios_link_undefined :
  fst (scrapeWithPuppeteer (Fixtures.site Fixtures.listing Fixtures.listing) "laptop" boot)
    = Returned [Product (Some "Laptop 14") (Some "$499.00") None None
                        (Some "https://www.amazon.com/dp/B01")] /\
  fst (scrapeWithAxios (Fixtures.site Fixtures.listing Fixtures.listing) "laptop" boot)
    = Returned [Product (Some "Laptop 14") (Some "$499.00") None None None].
Proof. split; vm_compute; reflexivity. Qed.

End ScrapeFacts.

(** ** The browser singleton *)
Module BrowserFacts.
Import Effects Browser.

Section WithEnvironment.
Variable env : environment.

(** The three segments, run back to back, are [getBrowser]. *)
Lemma resume_getBrowser (w : world) :
  let '(a1, w1) := resume env Called w in
  let '(a2, w2) := resume env a1 w1 in
  resume env a2 w2 = (Settled (fst (getBrowser env w)), snd (getBrowser env w)).
Proof.
  unfold getBrowser, bind, get, resume. simpl.
  destruct (browserInstance w) as [b|] eqn:Hb; [done|]. simpl.
  unfold launch. simpl. rewrite Hb.
  by destruct (launch_failure env (launch_calls w)).
Qed.

(** A call made after an earlier one has settled reuses its browser. *)
Lemma getBrowser_reuses (w : world) (b : nat) :
  fst (getBrowser env w) = Returned b ->
  getBrowser env (snd (getBrowser env w)) = (Returned b, snd (getBrowser env w)).
Proof.
  unfold getBrowser, bind, get. 
  destruct (browserInstance w) as [b0|] eqn:Hb; simpl.
  - intros [= ->]. by rewrite Hb.
  - unfold launch. simpl. destruct (launch_failure env (launch_calls w)); [done|].
    simpl. by intros [= ->].
Qed.

Lemma round_called (n : nat) (w : world) :
  browserInstance w = None ->
  fst (round env (replicate n Called) w) = replicate n Clearing /\
  browserInstance (snd (round env (replicate n Called) w)) = None /\
  launch_calls (snd (round env (replicate n Called) w)) = launch_calls w.
Proof.
  revert w. induction n as [|n IH]; intros w Hb; [done|].
  cbn [replicate round resume]. rewrite Hb.
  set (w1 := snd (clearPuppeteerData w)).
  destruct (IH w1 Hb) as (Hacts & Hb1 & Hl1).
  destruct (round env (replicate n Called) w1) as [acts w2]. simpl in *.
  by subst acts.
Qed.

Lemma round_clearing (n : nat) (w : world) :
  (forall b, launch_failure env b = None) ->
  fst (round env (replicate n Clearing) w)
    = (fun b => Launching (Returned b)) <$> seq (launch_calls w) n /\
  launch_calls (snd (round env (replicate n Clearing) w)) = (launch_calls w + n)%nat.
Proof.
  intros Hok. revert w. induction n as [|n IH]; intros w.
  - simpl. split; [done | lia].
  - cbn [replicate round resume]. unfold launch. rewrite Hok.
    match goal with
    | |- context [round env _ ?w'] => set (w1 := w')
    end.
    destruct (IH w1) as (Hacts & Hl1).
    destruct (round env (replicate n Clearing) w1) as [acts w2]. simpl in *.
    subst acts. split; [done | lia].
Qed.

Lemma round_launching (l : list nat) (w : world) :
  fst (round env ((fun b => Launching (Returned b)) <$> l) w)
    = (fun b => Settled (Returned b)) <$> l /\
  launch_calls (snd (round env ((fun b => Launching (Returned b)) <$> l) w))
    = launch_calls w.
Proof.
  revert w. induction l as [|b l IH]; intros w; [done|].
  cbn [fmap list_fmap round resume].
  set (w1 := snd (set_browserInstance b w)).
  destruct (IH w1) as (Hacts & Hl1).
  change (list_fmap nat activation (fun b => Launching (Returned b)) l)
    with ((fun b => Launching (Returned b)) <$> l).
  destruct (round env _ w1) as [acts w2]. simpl in *.
  by subst acts.
Qed.

Lemma processes_all_started (w : world) :
  (forall b, launch_failure env b = None) -> processes env w = launch_calls w.
Proof.
  intros Hok. unfold processes.
  rewrite forallb_filter_id.
  - apply length_seq.
  - apply forallb_forall. intros b _. by rewrite Hok.
Qed.

(** C4 on the code: [n] calls of [getBrowser] issued in the same turn,
    no browser being there yet, start [n] render processes, and every
    caller gets the browser of its own launch. *)
Theorem simultaneous_calls_launch_each (n : nat) (w : world) :
  browserInstance w = None ->
  (forall b, launch_failure env b = None) ->
  fst (simultaneous env n w)
    = (fun b => Settled (Returned b)) <$> seq (launch_calls w) n /\
  processes env (snd (simultaneous env n w)) = (processes env w + n)%nat.
Proof.
  intros Hb Hok. unfold simultaneous.
  destruct (round_called n w Hb) as (H1 & _ & Hl1).
  destruct (round env (replicate n Called) w) as [acts1 w1]. simpl in H1, Hl1. subst acts1.
  destruct (round_clearing n w1 Hok) as (H2 & Hl2).
  destruct (round env (replicate n Clearing) w1) as [acts2 w2]. simpl in H2, Hl2. subst acts2.
  destruct (round_launching (seq (launch_calls w1) n) w2) as (H3 & Hl3).
  split; [by rewrite H3, Hl1|].
  rewrite !processes_all_started by done. by rewrite Hl3, Hl2, Hl1.
Qed.

End WithEnvironment.

Lemma simultaneous_calls_launch_each_witness :
  fst (simultaneous (Fixtures.site Fixtures.listing Fixtures.listing) 2 boot)
    = [Settled (Returned 0%nat); Settled (Returned 1%nat)] /\
  processes (Fixtures.site Fixtures.listing Fixtures.listing)
            (snd (simultaneous (Fixtures.site Fixtures.listing Fixtures.listing) 2 boot))
    = 2%nat.
Proof.
  apply (simultaneous_calls_launch_each
           (Fixtures.site Fixtures.listing Fixtures.listing) 2 boot);
    [reflexivity | intros b; reflexivity].
Defined.

End BrowserFacts.

(** ** The retry loop *)
Module HandlerFacts.
Import Effects EffectsFacts Scrape Handler.

(** The orchestration events of a world's trace. *)
Local Abbreviation obs := (fun w : world => orchestration (trace w)).

Lemma orchestration_app (t1 t2 : list event) :
  orchestration (t1 ++ t2) = (orchestration t1 ++ orchestration t2)%list.
Proof. apply List.filter_app. Qed.

Section WithEnvironment.
Variable env : environment.

Lemma emit_quiet (e : event) : is_orchestration e = false -> stable obs (emit e).
Proof.
  intros He w. simpl. rewrite orchestration_app. simpl. rewrite He.
  apply app_nil_r.
Qed.

Lemma emit_obs (e : event) (w : world) :
  is_orchestration e = true ->
  orchestration (trace (snd (emit e w))) = (orchestration (trace w) ++ [e])%list.
Proof. intros He. simpl. rewrite orchestration_app. simpl. by rewrite He. Qed.

Lemma getBrowser_quiet : stable obs (Browser.getBrowser env).
Proof.
  intros w. unfold Browser.getBrowser, bind, get.
  destruct (browserInstance w); [done|]. simpl.
  unfold Browser.launch.
  destruct (launch_failure env _); simpl;
    rewrite !orchestration_app; simpl; by rewrite !app_nil_r.
Qed.

Lemma newPage_quiet : stable obs (newPage env).
Proof.
  intros w. unfold newPage.
  destruct (newPage_failure _); simpl; [done|].
  rewrite orchestration_app. simpl. apply app_nil_r.
Qed.

Lemma getAmazonHeaders_quiet : stable obs (getAmazonHeaders env).
Proof. by intros w. Qed.

Lemma evaluate_quiet (doc : Dom.node) : stable obs (evaluate env doc).
Proof. by intros w. Qed.

Lemma axios_get_quiet (headers : list (string * string)) :
  stable obs (axios_get env headers).
Proof.
  intros w. unfold axios_get.
  destruct (fetch_failure _); simpl; rewrite orchestration_app; simpl; apply app_nil_r.
Qed.

Lemma data_includes_quiet (d : JS.json) (x : string) : stable obs (data_includes d x).
Proof. by destruct d. Qed.

Ltac quiet :=
  stable_with ltac:(first [ apply getBrowser_quiet
                          | apply newPage_quiet
                          | apply getAmazonHeaders_quiet
                          | apply evaluate_quiet
                          | apply axios_get_quiet
                          | apply data_includes_quiet
                          | by apply emit_quiet ]).

Lemma obs_after_emit {A} (e : event) (m : M A) (w : world) :
  is_orchestration e = true ->
  stable obs m ->
  orchestration (trace (snd ((emit e;;; m) w)))
    = (orchestration (trace w) ++ [e])%list.
Proof.
  intros He Hm. unfold bind. cbn [emit]. rewrite (Hm _).
  apply (emit_obs e w He).
Qed.

(** Each scraper adds its own call to the orchestration events, and
    nothing else. *)
Lemma scrapeWithPuppeteer_obs (keyword : string) (w : world) :
  orchestration (trace (snd (scrapeWithPuppeteer env keyword w)))
    = (orchestration (trace w) ++ [Puppeteer keyword])%list.
Proof. unfold scrapeWithPuppeteer, page_steps. apply obs_after_emit; [done|]. quiet. Qed.

Lemma scrapeWithAxios_obs (keyword : string) (w : world) :
  orchestration (trace (snd (scrapeWithAxios env keyword w)))
    = (orchestration (trace w) ++ [Axios keyword])%list.
Proof.
  unfold scrapeWithAxios. apply obs_after_emit; [done|]. quiet.
Qed.

Lemma entering_obs (a : Z) (w : world) :
  orchestration (trace (entering a w))
    = (orchestration (trace w) ++ if 0 <? a then [Sleep (2000 * a)] else [])%list.
Proof.
  unfold entering. destruct (0 <? a); simpl.
  - by rewrite orchestration_app.
  - by rewrite app_nil_r.
Qed.

Section Loop.
Variables (keyword : string) (retryCount : Z).

(** One iteration, by what the rendering scraper does. *)
Lemma attempt_body_unfold (attempt : Z) (st : loop_state) (w : world) :
  attempt_body env keyword retryCount attempt st w =
  match scrapeWithPuppeteer env keyword (entering attempt w) with
  | (Returned ps, w1) =>
      (Returned (LoopState ps (lastError st), (0 <? length ps)%nat), w1)
  | (Thrown error, w1) =>
      if attempt =? retryCount
      then match scrapeWithAxios env keyword w1 with
           | (Returned ps, w2) => (Returned (LoopState ps (Some error), false), w2)
           | (Thrown axiosError, w2) =>
               (Returned (LoopState (products st) (Some axiosError), false), w2)
           end
      else (Returned (LoopState (products st) (Some error), false), w1)
  end.
Proof.
  unfold attempt_body, try_catch, bind, entering.
  destruct (0 <? attempt); simpl;
    (destruct (scrapeWithPuppeteer env keyword _) as [[ps|e] w1]; simpl; [done|]);
    (destruct (attempt =? retryCount); [|done]);
    by destruct (scrapeWithAxios env keyword w1) as [[ps|e1] w2].
Qed.

Lemma attempt_body_spec (attempt : Z) (st : loop_state) (w : world) :
  exists (st1 : loop_state) (brk fb : bool),
    fst (attempt_body env keyword retryCount attempt st w) = Returned (st1, brk) /\
    orchestration (trace (snd (attempt_body env keyword retryCount attempt st w)))
      = (orchestration (trace w) ++ attempt_events keyword attempt
           ++ if fb then [Axios keyword] else [])%list /\
    (fb = true -> attempt = retryCount /\ brk = false).
Proof.
  rewrite attempt_body_unfold.
  pose proof (scrapeWithPuppeteer_obs keyword (entering attempt w)) as Hp.
  rewrite entering_obs in Hp.
  destruct (scrapeWithPuppeteer env keyword (entering attempt w)) as [[ps|e] w1];
    simpl in Hp.
  - eexists _, _, false. split; [done|]. split; [|done].
    simpl. unfold attempt_events. by rewrite Hp, app_nil_r, <- app_assoc.
  - destruct (Z.eqb_spec attempt retryCount) as [Heq|Hne].
    + pose proof (scrapeWithAxios_obs keyword w1) as Ha.
      destruct (scrapeWithAxios env keyword w1) as [[ps|e1] w2]; simpl in Ha;
        eexists _, _, true; (split; [done|]); (split; [|done]);
        simpl; unfold attempt_events; by rewrite Ha, Hp, <- !app_assoc.
    + eexists _, _, false. split; [done|]. split; [|done].
      simpl. unfold attempt_events. by rewrite Hp, app_nil_r, <- app_assoc.
Qed.

(** The loop always comes to its end, and its orchestration events
    are a run of consecutive attempts, then possibly the fallback. *)
Lemma attempts_schedule (fuel : nat) :
  forall (a : Z) (st : loop_state) (w : world),
  exists (n : nat) (fb : bool) (st1 : loop_state),
    fst (attempts env fuel keyword retryCount a st w) = Returned st1 /\
    (n <= fuel)%nat /\
    Z.of_nat n <= Z.max 0 (retryCount + 1 - a) /\
    (a <= retryCount -> (1 <= fuel)%nat -> (1 <= n)%nat) /\
    (fb = true -> (1 <= n)%nat) /\
    orchestration (trace (snd (attempts env fuel keyword retryCount a st w)))
      = (orchestration (trace w) ++ schedule keyword a n
           ++ if fb then [Axios keyword] else [])%list.
Proof.
  induction fuel as [|fuel IH]; intros a st w.
  - exists 0%nat, false, st. simpl. rewrite app_nil_r.
    repeat split; try done; lia.
  - cbn [attempts]. destruct (Z.leb_spec a retryCount) as [Hle|Hgt].
    + destruct (attempt_body_spec a st w) as (st1 & brk & fb1 & Hfst & Hobs & Hfb).
      unfold bind.
      destruct (attempt_body env keyword retryCount a st w) as [o w1].
      simpl in Hfst, Hobs. subst o. cbn [fst snd].
      destruct brk.
      * exists 1%nat, fb1, st1. simpl. rewrite app_nil_r.
        repeat split; try done; lia.
      * destruct (IH (a + 1) st1 w1) as (n & fb & st2 & Hfst2 & Hn & Hbound & _ & Hfbn & Hobs2).
        destruct fb1.
        -- destruct (Hfb eq_refl) as [-> _].
           assert (n = 0%nat) as -> by lia.
           assert (fb = false) as ->.
           { destruct fb; [|done]. specialize (Hfbn eq_refl). lia. }
           exists 1%nat, true, st2. simpl in *.
           rewrite Hobs2, Hobs, !app_nil_r.
           repeat split; try done; lia.
        -- exists (S n), fb, st2. cbn [schedule].
           rewrite Hobs2, Hobs, app_nil_r, <- !app_assoc.
           repeat split; try done; lia.
    + exists 0%nat, false, st. simpl. rewrite app_nil_r.
      repeat split; try done; lia.
Qed.

(** Fuel beyond the number of iterations left changes nothing. *)
Lemma attempts_fuel (f1 : nat) :
  forall (f2 : nat) (a : Z) (st : loop_state) (w : world),
  (Z.to_nat (retryCount + 1 - a) <= f1)%nat ->
  (Z.to_nat (retryCount + 1 - a) <= f2)%nat ->
  attempts env f1 keyword retryCount a st w
    = attempts env f2 keyword retryCount a st w.
Proof.
  induction f1 as [|f1 IH]; intros [|f2] a st w H1 H2; cbn [attempts]; try done.
  - destruct (Z.leb_spec a retryCount); [lia | done].
  - destruct (Z.leb_spec a retryCount); [lia | done].
  - destruct (Z.leb_spec a retryCount) as [Hle|Hgt]; [|done].
    unfold bind.
    destruct (attempt_body env keyword retryCount a st w) as [[[st1 brk]|e] w1];
      [|done].
    cbn [fst snd]. destruct brk; [done|].
    apply IH; lia.
Qed.

Lemma attempts_done (fuel : nat) (a : Z) (st : loop_state) (w : world) :
  retryCount < a ->
  attempts env fuel keyword retryCount a st w = (Returned st, w).
Proof.
  intros Hgt. destruct fuel; [done|]. cbn [attempts].
  destruct (Z.leb_spec a retryCount); [lia | done].
Qed.

(** The loop when no attempt gives a record: every attempt up to
    [retryCount] is made, and the fallback runs when the last one
    throws. *)
Lemma attempts_no_records (n : nat) :
  forall (a : Z) (st : loop_state) (w : world) (fuel : nat),
  a + Z.of_nat n = retryCount ->
  (n < fuel)%nat ->
  (forall i : nat, (i <= n)%nat -> no_records (attempt_outcome env keyword a i w)) ->
  orchestration (trace (snd (attempts env fuel keyword retryCount a st w)))
    = (orchestration (trace w) ++ schedule keyword a (S n)
         ++ if thrown (attempt_outcome env keyword a n w)
            then [Axios keyword] else [])%list.
Proof.
  induction n as [|n IH]; intros a st w [|fuel] Ha Hfuel Hno; try lia.
  - assert (a = retryCount) as -> by lia.
    specialize (Hno 0%nat (Nat.le_refl _)).
    cbn [attempts attempt_outcome schedule] in *.
    rewrite Z.leb_refl. unfold bind. rewrite attempt_body_unfold, Z.eqb_refl.
    pose proof (scrapeWithPuppeteer_obs keyword (entering retryCount w)) as Hp.
    rewrite entering_obs in Hp.
    destruct (scrapeWithPuppeteer env keyword (entering retryCount w)) as [[ps|e] w1];
      cbn [fst snd thrown] in *.
    + destruct ps; [|done]. cbn [length Nat.ltb Nat.leb].
      rewrite attempts_done by lia. cbn [snd].
      unfold attempt_events. by rewrite Hp, !app_nil_r, <- app_assoc.
    + pose proof (scrapeWithAxios_obs keyword w1) as Hx.
      destruct (scrapeWithAxios env keyword w1) as [[ps|e1] w2]; cbn [fst snd] in *;
        rewrite attempts_done by lia; cbn [snd];
        unfold attempt_events; by rewrite Hx, Hp, !app_nil_r, <- !app_assoc.
  - assert (Hlt : a < retryCount) by lia.
    pose proof (Hno 0%nat (Nat.le_0_l _)) as H0.
    assert (Hnext : forall i : nat, (i <= n)%nat ->
              no_records (attempt_outcome env keyword (a + 1) i
                            (snd (scrapeWithPuppeteer env keyword (entering a w))))).
    { intros i Hi. apply (Hno (S i)). lia. }
    cbn [attempts attempt_outcome] in *.
    destruct (Z.leb_spec a retryCount) as [_|]; [|lia].
    unfold bind. rewrite attempt_body_unfold.
    destruct (Z.eqb_spec a retryCount) as [|_]; [lia|].
    pose proof (scrapeWithPuppeteer_obs keyword (entering a w)) as Hp.
    rewrite entering_obs in Hp.
    destruct (scrapeWithPuppeteer env keyword (entering a w)) as [[ps|e] w1];
      cbn [fst snd] in *.
    + destruct ps; [|done]. cbn [length Nat.ltb Nat.leb].
      rewrite (IH (a + 1) _ w1 fuel) by (done || lia).
      cbn [schedule]. unfold attempt_events at 2.
      by rewrite Hp, <- !app_assoc.
    + rewrite (IH (a + 1) _ w1 fuel) by (done || lia).
      cbn [schedule]. unfold attempt_events at 2.
      by rewrite Hp, <- !app_assoc.
Qed.

End Loop.

(** *** Counting calls *)
Lemma puppeteer_calls_app (t1 t2 : list event) :
  puppeteer_calls (t1 ++ t2) = (puppeteer_calls t1 + puppeteer_calls t2)%nat.
Proof. unfold puppeteer_calls. by rewrite List.filter_app, length_app. Qed.

Lemma axios_calls_app (t1 t2 : list event) :
  axios_calls (t1 ++ t2) = (axios_calls t1 + axios_calls t2)%nat.
Proof. unfold axios_calls. by rewrite List.filter_app, length_app. Qed.

Lemma puppeteer_calls_orchestration (t : list event) :
  puppeteer_calls (orchestration t) = puppeteer_calls t.
Proof.
  unfold puppeteer_calls, orchestration.
  induction t as [|e t IH]; [done|]. destruct e; simpl; by rewrite IH.
Qed.

Lemma axios_calls_orchestration (t : list event) :
  axios_calls (orchestration t) = axios_calls t.
Proof.
  unfold axios_calls, orchestration.
  induction t as [|e t IH]; [done|]. destruct e; simpl; by rewrite IH.
Qed.

Lemma puppeteer_calls_schedule (keyword : string) (n : nat) :
  forall a, puppeteer_calls (schedule keyword a n) = n.
Proof.
  induction n as [|n IH]; intros a; [done|].
  cbn [schedule]. rewrite puppeteer_calls_app, IH.
  unfold attempt_events. by destruct (0 <? a).
Qed.

Lemma axios_calls_schedule (keyword : string) (n : nat) :
  forall a, axios_calls (schedule keyword a n) = 0%nat.
Proof.
  induction n as [|n IH]; intros a; [done|].
  cbn [schedule]. rewrite axios_calls_app, IH.
  unfold attempt_events. by destruct (0 <? a).
Qed.

(** A run of attempts, cut before attempt [a + n1]. *)
Lemma schedule_app (keyword : string) (n1 n2 : nat) :
  forall a, schedule keyword a (n1 + n2)
            = (schedule keyword a n1 ++ schedule keyword (a + Z.of_nat n1) n2)%list.
Proof.
  induction n1 as [|n1 IH]; intros a.
  - simpl. by rewrite Z.add_0_r.
  - cbn [Nat.add schedule]. rewrite IH, <- app_assoc.
    by replace (a + 1 + Z.of_nat n1) with (a + Z.of_nat (S n1)) by lia.
Qed.

(** Attempt [i] of a run of [n] attempts: [i] calls come before it, and
    its own events are the wait, if any, and the call. *)
Lemma schedule_attempt (keyword : string) (n i : nat) :
  (i < n)%nat ->
  exists t1 t2,
    schedule keyword 0 n
      = (t1 ++ attempt_events keyword (Z.of_nat i) ++ t2)%list /\
    puppeteer_calls t1 = i.
Proof.
  intros Hi. exists (schedule keyword 0 i), (schedule keyword (Z.of_nat i + 1) (n - S i)).
  split; [|apply puppeteer_calls_schedule].
  replace n with (i + S (n - S i))%nat at 1 by lia.
  by rewrite schedule_app.
Qed.

Lemma puppeteer_calls_fallback (keyword : string) (fb : bool) :
  puppeteer_calls (if fb then [Axios keyword] else []) = 0%nat.
Proof. by destruct fb. Qed.

(** The handler leaves the world as the loop left it. *)
Lemma handler_world (a : ascii) (k : string) (retry : option query_value) (w : world) :
  snd (handler env (Some (QString (String a k))) retry w)
    = snd (attempts env (Z.to_nat (retryCount_of retry + 1)) (String a k)
                    (retryCount_of retry) 0 (LoopState [] None) w).
Proof.
  unfold handler, try_catch, bind.
  destruct (attempts env _ _ _ _ _ w) as [[st|e] w1]; [|done].
  by destruct (products st).
Qed.

Lemma retryCount_le_3 (retry : option query_value) : retryCount_of retry <= 3.
Proof. unfold retryCount_of. lia. Qed.

(** C1, as the code has it: when no rendering attempt gives a record,
    the rendering scraper is called [r + 1] times, and the raw-fetch
    scraper is called once if the last attempt threw and not at all
    if it returned an empty list.  With [r = 0] that is one rendering
    call and, when it throws, one raw-fetch call. *)
Theorem fallback_follows_a_throw (a : ascii) (k : string)
    (retry : option query_value) (w : world) :
  let keyword := String a k in
  let r := retryCount_of retry in
  let w1 := snd (handler env (Some (QString keyword)) retry w) in
  0 <= r ->
  (forall i : nat, Z.of_nat i <= r -> no_records (attempt_outcome env keyword 0 i w)) ->
  r <= 3 /\
  puppeteer_calls (trace w1) = (puppeteer_calls (trace w) + Z.to_nat (r + 1))%nat /\
  axios_calls (trace w1)
    = (axios_calls (trace w)
       + if thrown (attempt_outcome env keyword 0 (Z.to_nat r) w) then 1 else 0)%nat.
Proof.
  intros keyword r w1 Hr Hno.
  pose proof (handler_world a k retry w) as Hw. fold keyword r w1 in Hw.
  assert (Hobs : orchestration (trace w1)
            = (orchestration (trace w) ++ schedule keyword 0 (S (Z.to_nat r))
                 ++ if thrown (attempt_outcome env keyword 0 (Z.to_nat r) w)
                    then [Axios keyword] else [])%list).
  { rewrite Hw.
    apply attempts_no_records; [lia | lia |].
    intros i Hi. apply Hno. lia. }
  split; [apply retryCount_le_3|]. split.
  - rewrite <- (puppeteer_calls_orchestration (trace w1)), Hobs.
    rewrite !puppeteer_calls_app, puppeteer_calls_orchestration, puppeteer_calls_schedule.
    rewrite puppeteer_calls_fallback. lia.
  - rewrite <- (axios_calls_orchestration (trace w1)), Hobs.
    rewrite !axios_calls_app, axios_calls_orchestration, axios_calls_schedule.
    by destruct (thrown _).
Qed.

(** C9: the rendering scraper is called [n] times with [n <= r + 1],
    the calls are the attempts 0, 1, ..., [n - 1] in turn, the raw-fetch
    scraper, if called, comes last, and attempt [i] comes right after a
    wait of [2000 * i] ms when [i > 0] and after no wait when [i = 0]. *)
Theorem linear_backoff (a : ascii) (k : string)
    (retry : option query_value) (w : world) :
  let keyword := String a k in
  let r := retryCount_of retry in
  let w1 := snd (handler env (Some (QString keyword)) retry w) in
  0 <= r ->
  r <= 3 /\
  exists (n : nat) (fb : bool),
    (1 <= n)%nat /\ Z.of_nat n <= r + 1 /\
    orchestration (trace w1)
      = (orchestration (trace w) ++ schedule keyword 0 n
           ++ if fb then [Axios keyword] else [])%list /\
    puppeteer_calls (trace w1) = (puppeteer_calls (trace w) + n)%nat /\
    forall i : nat, (i < n)%nat ->
      exists t1 t2,
        schedule keyword 0 n
          = (t1 ++ (if 0 <? Z.of_nat i then [Sleep (2000 * Z.of_nat i)] else [])
               ++ [Puppeteer keyword] ++ t2)%list /\
        puppeteer_calls t1 = i.
Proof.
  intros keyword r w1 Hr. split; [apply retryCount_le_3|].
  pose proof (handler_world a k retry w) as Hw. fold keyword r w1 in Hw.
  destruct (attempts_schedule keyword r (Z.to_nat (r + 1)) 0 (LoopState [] None) w)
    as (n & fb & st1 & _ & _ & Hbound & Hpos & _ & Hobs).
  rewrite <- Hw in Hobs.
  exists n, fb. split; [apply Hpos; lia|]. split; [lia|]. split; [exact Hobs|].
  split.
  - rewrite <- (puppeteer_calls_orchestration (trace w1)), Hobs.
    rewrite !puppeteer_calls_app, puppeteer_calls_orchestration, puppeteer_calls_schedule.
    rewrite puppeteer_calls_fallback. lia.
  - intros i Hi. destruct (schedule_attempt keyword n i Hi) as (t1 & t2 & Heq & Hcount).
    exists t1, t2. split; [|exact Hcount].
    rewrite Heq. unfold attempt_events. by rewrite <- app_assoc.
Qed.

(** C10: the retry count is [min(parseInt(retry) or 0, 3)]: the parsed
    value itself from 0 to 3, 3 above 3, 0 for a value that does not
    parse and for a query without [retry]; a negative value is kept, and
    then the handler answers 404 without calling either scraper: the
    world is as it was. *)
Theorem negative_retry_calls_nothing (a : ascii) (k : string)
    (retry : query_value) (w : world) :
  let r := retryCount_of (Some retry) in
  r = Z.min (JS.or_zero (JS.parseInt (to_string retry))) 3 /\
  retryCount_of None = 0 /\
  (forall n, JS.parseInt (to_string retry) = Some n -> 0 <= n <= 3 -> r = n) /\
  (forall n, JS.parseInt (to_string retry) = Some n -> 3 < n -> r = 3) /\
  (JS.parseInt (to_string retry) = None -> r = 0) /\
  (forall n, JS.parseInt (to_string retry) = Some n -> n < 0 ->
     r = n /\
     handler env (Some (QString (String a k))) (Some retry) w
       = (Returned (NotFound "No products found" "Try different keywords"), w)).
Proof.
  intros r. unfold r, retryCount_of, JS.or_zero.
  split; [done|]. split; [done|]. split; [|split; [|split]].
  - intros n -> Hn. simpl. lia.
  - intros n -> Hn. simpl. lia.
  - by intros ->.
  - intros n Hn Hneg.
    assert (Hr : retryCount_of (Some retry) = n).
    { unfold retryCount_of, JS.or_zero. rewrite Hn. simpl. lia. }
    split; [rewrite Hn; simpl; lia|].
    unfold handler. rewrite Hr.
    replace (Z.to_nat (n + 1)) with 0%nat by lia.
    reflexivity.
Qed.

End WithEnvironment.

(** Every navigation times out; one retry. *)
Lemma fallback_follows_a_throw_witness :
  let env := Fixtures.down Fixtures.listing in
  let w1 := snd (handler env (Some (QString "laptop")) (Some (QString "1")) boot) in
  puppeteer_calls (trace w1) = 2%nat /\ axios_calls (trace w1) = 1%nat.
Proof.
  intros env w1.
  assert (H0 : 0 <= retryCount_of (Some (QString "1"))) by (vm_compute; discriminate).
  assert (Hno : forall i : nat, Z.of_nat i <= retryCount_of (Some (QString "1")) ->
            no_records (attempt_outcome env "laptop" 0 i boot)).
  { intros [|[|i]] Hi; [by vm_compute | by vm_compute |].
    exfalso. change (retryCount_of (Some (QString "1"))) with 1 in Hi. lia. }
  destruct (fallback_follows_a_throw env "l" "aptop" (Some (QString "1")) boot H0 Hno)
    as (_ & Hp & Ha).
  split; [exact Hp | exact Ha].
Defined.

(** C1 as stated fails: the only attempt returns an empty list, and the
    raw-fetch scraper is not called. *)
Lemma empty_render_skips_fallback :
  let env := Fixtures.site Fixtures.bare Fixtures.listing in
  let w1 := snd (handler env (Some (QString "laptop")) (Some (QString "0")) boot) in
  retryCount_of (Some (QString "0")) = 0 /\
  fst (scrapeWithPuppeteer env "laptop" boot) = Returned [] /\
  puppeteer_calls (trace w1) = 1%nat /\
  axios_calls (trace w1) <> 1%nat.
Proof. by vm_compute. Qed.

Lemma linear_backoff_witness :
  let env := Fixtures.down Fixtures.listing in
  let w1 := snd (handler env (Some (QString "laptop")) (Some (QString "3")) boot) in
  exists (n : nat) (fb : bool),
    (1 <= n)%nat /\ Z.of_nat n <= 3 + 1 /\
    orchestration (trace w1)
      = (schedule "laptop" 0 n ++ if fb then [Axios "laptop"] else [])%list /\
    puppeteer_calls (trace w1) = n.
Proof.
  intros env w1.
  assert (H0 : 0 <= retryCount_of (Some (QString "3"))) by (vm_compute; discriminate).
  destruct (linear_backoff env "l" "aptop" (Some (QString "3")) boot H0)
    as (_ & n & fb & Hn & Hle & Hobs & Hcalls & _).
  exists n, fb. split; [exact Hn|]. split; [exact Hle|]. split; [exact Hobs | exact Hcalls].
Defined.

(** The attempts of a full run with three retries. *)
Example schedule_of_four :
  schedule "laptop" 0 4
    = [Puppeteer "laptop"; Sleep 2000; Puppeteer "laptop"; Sleep 4000;
       Puppeteer "laptop"; Sleep 6000; Puppeteer "laptop"].
Proof. reflexivity. Qed.

Lemma negative_retry_calls_nothing_witness :
  retryCount_of (Some (QString "-1")) = -1 /\
  handler (Fixtures.site Fixtures.listing Fixtures.listing)
          (Some (QString "laptop")) (Some (QString "-1")) boot
    = (Returned (NotFound "No products found" "Try different keywords"), boot).
Proof.
  apply (negative_retry_calls_nothing
           (Fixtures.site Fixtures.listing Fixtures.listing) "l" "aptop"
           (QString "-1") boot); [reflexivity | lia].
Defined.

End HandlerFacts.

(** ** More on the rate limiter *)
Module RateLimitMore.
Import RateLimit Traffic RateLimitFacts.

Lemma lookup_foldl_delete_Some (l : list (Z * string)) (m : gmap string Z)
    (ip : string) (c : Z) :
  foldl (fun m t => delete (snd t) m) m l !! ip = Some c -> m !! ip = Some c.
Proof.
  revert m. induction l as [|[d k] l IH]; intros m H; simpl in *; [done|].
  apply IH in H. destruct (decide (k = ip)) as [->|Hne].
  - by rewrite lookup_delete_eq in H.
  - by rewrite lookup_delete_ne in H.
Qed.

Lemma lookup_foldl_delete_elem (l : list (Z * string)) (m : gmap string Z)
    (ip : string) (d : Z) :
  (d, ip) ∈ l -> foldl (fun m t => delete (snd t) m) m l !! ip = None.
Proof.
  revert m. induction l as [|[d1 k] l IH]; intros m Hin; [by apply elem_of_nil in Hin|].
  apply elem_of_cons in Hin as [[= <- <-]|Hin]; simpl.
  - destruct (foldl _ (delete ip m) l !! ip) as [c|] eqn:Hc; [|done].
    apply lookup_foldl_delete_Some in Hc. by rewrite lookup_delete_eq in Hc.
  - by apply IH.
Qed.

(** *** The count stays between 1 and 11 *)
Lemma run_timers_bounded (now : Z) (st : state) :
  bounded_counts st -> bounded_counts (run_timers now st).
Proof.
  intros Hb ip c Hc. unfold run_timers in Hc; simpl in Hc.
  apply lookup_foldl_delete_Some in Hc. by eapply Hb.
Qed.

Lemma middleware_bounded (now : Z) (ip : string) (st : state) :
  bounded_counts st -> bounded_counts (snd (middleware now ip st)).
Proof.
  intros Hb k c. unfold middleware.
  destruct (Z.ltb_spec 10 (default 0 (requestCounts st !! ip))) as [Hgt|Hle];
    cbn [snd requestCounts]; [apply Hb|].
  destruct (decide (ip = k)) as [->|Hne].
  - rewrite lookup_insert_eq. intros [= <-].
    destruct (requestCounts st !! k) as [c0|] eqn:Hk; simpl in *; [|lia].
    specialize (Hb k c0 Hk). lia.
  - rewrite lookup_insert_ne by done. apply Hb.
Qed.

Lemma run_bounded (reqs : list (Z * string)) :
  forall st, bounded_counts st -> bounded_counts (snd (run reqs st)).
Proof.
  induction reqs as [|[now ip] reqs IH]; intros st Hb; [done|].
  cbn [run]. unfold request.
  pose proof (middleware_bounded now ip _ (run_timers_bounded now st Hb)) as H1.
  destruct (middleware now ip (run_timers now st)) as [v st1]. cbn [snd] in H1.
  specialize (IH st1 H1). by destruct (run reqs st1).
Qed.

(** Whatever the clients send and whenever, an entry of the map is never
    below 1 nor above 11. *)
Theorem count_between_1_and_11 (reqs : list (Z * string)) (ip : string) (c : Z) :
  requestCounts (snd (run reqs initial)) !! ip = Some c -> 1 <= c <= 11.
Proof. apply run_bounded. intros k c0 H. cbn in H. by rewrite lookup_empty in H. Qed.

Lemma count_between_1_and_11_witness :
  requestCounts (snd (run (burst 30) initial)) !! client = Some 11 /\ 1 <= 11 <= 11.
Proof.
  assert (H : requestCounts (snd (run (burst 30) initial)) !! client = Some 11)
    by (vm_compute; reflexivity).
  split; [exact H | exact (count_between_1_and_11 (burst 30) client 11 H)].
Defined.

(** *** Nothing outlives its callbacks *)
Lemma run_timers_covered (now : Z) (st : state) :
  covered st -> covered (run_timers now st).
Proof.
  intros Hc ip [c Hip]. unfold run_timers in *; cbn [requestCounts timers] in *.
  pose proof (lookup_foldl_delete_Some _ _ _ _ Hip) as H0.
  destruct (Hc ip (ex_intro _ c H0)) as [d Hd].
  exists d. apply list_elem_of_filter. split; [|done]. cbn [fst].
  intros Hdue.
  rewrite (lookup_foldl_delete_elem _ _ ip d) in Hip; [done|].
  apply list_elem_of_filter. by split.
Qed.

Lemma middleware_covered (now : Z) (ip : string) (st : state) :
  covered st -> covered (snd (middleware now ip st)).
Proof.
  intros Hc k. unfold middleware.
  destruct (10 <? default 0 (requestCounts st !! ip)); cbn [snd requestCounts timers];
    [apply Hc|].
  destruct (decide (ip = k)) as [->|Hne].
  - intros _. exists (now + 60000). apply elem_of_app. right. apply list_elem_of_singleton.
    reflexivity.
  - rewrite lookup_insert_ne by done. intros Hk.
    destruct (Hc k Hk) as [d Hd]. exists d. apply elem_of_app. by left.
Qed.

Lemma middleware_dues (now T : Z) (ip : string) (st : state) :
  now + 60000 <= T ->
  Forall (fun t : Z * string => fst t <= T) (timers st) ->
  Forall (fun t : Z * string => fst t <= T) (timers (snd (middleware now ip st))).
Proof.
  intros Hnow Hall. unfold middleware.
  destruct (10 <? default 0 (requestCounts st !! ip)); cbn [snd timers]; [done|].
  apply Forall_app. split; [done|]. by constructor.
Qed.

Lemma run_covered (T : Z) (reqs : list (Z * string)) :
  forall st,
  Forall (fun r : Z * string => fst r + 60000 <= T) reqs ->
  covered st ->
  Forall (fun t : Z * string => fst t <= T) (timers st) ->
  covered (snd (run reqs st)) /\
  Forall (fun t : Z * string => fst t <= T) (timers (snd (run reqs st))).
Proof.
  induction reqs as [|[now ip] reqs IH]; intros st Hreqs Hc Hd; [done|].
  inversion Hreqs as [|? ? Hnow Hrest]; subst. cbn [fst] in Hnow.
  cbn [run]. unfold request.
  pose proof (middleware_covered now ip _ (run_timers_covered now st Hc)) as H1.
  pose proof (middleware_dues now T ip _ Hnow (run_timers_pending now _ st Hd)) as H2.
  destruct (middleware now ip (run_timers now st)) as [v st1]. cbn [snd] in H1, H2.
  specialize (IH st1 Hrest H1 H2). by destruct (run reqs st1).
Qed.

Lemma run_timers_all_due (T : Z) (st : state) :
  covered st ->
  Forall (fun t : Z * string => fst t <= T) (timers st) ->
  run_timers T st = initial.
Proof.
  intros Hc Hd. unfold run_timers, initial. f_equal.
  - apply map_eq. intros ip. rewrite lookup_empty.
    destruct (foldl _ _ _ !! ip) as [c|] eqn:Hip; [|done].
    pose proof (lookup_foldl_delete_Some _ _ _ _ Hip) as H0.
    destruct (Hc ip (ex_intro _ c H0)) as [d Hin].
    rewrite (lookup_foldl_delete_elem _ _ ip d) in Hip; [done|].
    apply list_elem_of_filter. split; [|done].
    rewrite Forall_forall in Hd. apply (Hd _ Hin).
  - induction Hd as [|t l Ht Hl IH]; [done|].
    clear Hc. rewrite filter_cons. destruct (decide (~ fst t <= T)); [done|]. apply IH.
Qed.

(** Once every request is at least 60000 ms old, the map is empty and no
    callback is pending: the state is the initial one again. *)
Theorem forgotten_after_a_minute (reqs : list (Z * string)) (T : Z) :
  Forall (fun r : Z * string => fst r + 60000 <= T) reqs ->
  run_timers T (snd (run reqs initial)) = initial.
Proof.
  intros Hreqs.
  destruct (run_covered T reqs initial Hreqs) as [Hc Hd].
  - intros ip [c Hip]. cbn in Hip. by rewrite lookup_empty in Hip.
  - constructor.
  - by apply run_timers_all_due.
Qed.

Lemma forgotten_after_a_minute_witness :
  run_timers 89000 (snd (run (burst 30) initial)) = initial.
Proof.
  apply (forgotten_after_a_minute (burst 30) 89000).
  unfold burst. simpl. repeat constructor; simpl; lia.
Defined.


(** *** A clean slate a minute after an admitted request *)
Lemma run_keeps_timer (d : Z) (ip : string) (reqs : list (Z * string)) :
  forall st,
  Forall (fun r : Z * string => fst r < d) reqs ->
  (d, ip) ∈ timers st ->
  (d, ip) ∈ timers (snd (run reqs st)).
Proof.
  induction reqs as [|[now c] reqs IH]; intros st Hreqs Hin; [done|].
  inversion Hreqs as [|? ? Hnow Hrest]; subst. cbn [fst] in Hnow.
  cbn [run]. unfold request.
  assert (H1 : (d, ip) ∈ timers (snd (middleware now c (run_timers now st)))).
  { unfold middleware.
    assert (Hkeep : (d, ip) ∈ timers (run_timers now st)).
    { unfold run_timers; cbn [timers]. apply list_elem_of_filter.
      split; [cbn [fst]; lia | done]. }
    destruct (10 <? _); cbn [snd timers]; [done|].
    apply elem_of_app. by left. }
  destruct (middleware now c (run_timers now st)) as [v st1]. cbn [snd] in H1.
  specialize (IH st1 Hrest H1). by destruct (run reqs st1).
Qed.

(** Once a request of a client has been admitted at [t], the client has
    no entry left at [t + 60000], whatever was requested in between: its
    next request is admitted with count 1. *)
Theorem clean_slate_after_a_minute (t : Z) (ip : string) (st : state)
    (reqs : list (Z * string)) :
  fst (request t ip st) = Next ->
  Forall (fun r : Z * string => fst r < t + 60000) reqs ->
  let st2 := snd (run reqs (snd (request t ip st))) in
  requestCounts (run_timers (t + 60000) st2) !! ip = None /\
  fst (request (t + 60000) ip st2) = Next /\
  requestCounts (snd (request (t + 60000) ip st2)) !! ip = Some 1.
Proof.
  intros Hadm Hreqs st2.
  assert (Hin : (t + 60000, ip) ∈ timers st2).
  { apply run_keeps_timer; [done|].
    unfold request, middleware in *.
    destruct (10 <? _); [done|]. cbn [snd timers].
    apply elem_of_app. right. by apply list_elem_of_singleton. }
  assert (Hnone : requestCounts (run_timers (t + 60000) st2) !! ip = None).
  { unfold run_timers; cbn [requestCounts].
    apply (lookup_foldl_delete_elem _ _ ip (t + 60000)).
    apply list_elem_of_filter. split; [cbn [fst]; lia | done]. }
  split; [done|].
  unfold request at 1 2, middleware. rewrite Hnone. cbn [default].
  destruct (Z.ltb_spec 10 0); [lia|]. cbn [fst snd requestCounts].
  split; [done|]. by rewrite lookup_insert_eq.
Qed.

Lemma clean_slate_after_a_minute_witness :
  let st2 := snd (run (burst 30) (snd (request 0 client initial))) in
  requestCounts (run_timers (0 + 60000) st2) !! client = None /\
  fst (request (0 + 60000) client st2) = Next /\
  requestCounts (snd (request (0 + 60000) client st2)) !! client = Some 1.
Proof.
  apply (clean_slate_after_a_minute 0 client initial (burst 30)).
  - reflexivity.
  - unfold burst. simpl. repeat constructor; simpl; lia.
Defined.

(** *** A client sees its own requests only *)
Lemma filter_own_not_due (ip : string) (now : Z) (l : list (Z * string)) :
  filter (fun t : Z * string => snd t = ip) (filter (fun t : Z * string => ~ fst t <= now) l)
  = filter (fun t : Z * string => ~ fst t <= now) (filter (fun t : Z * string => snd t = ip) l).
Proof.
  induction l as [|t l IH]; [done|].
  rewrite !filter_cons.
  destruct (decide (~ fst t <= now)), (decide (snd t = ip));
    rewrite ?filter_cons, ?decide_True, ?decide_False by done; by rewrite ?IH.
Qed.

Lemma view_settle (ip : string) (now : Z) (st : state) :
  view ip now st = settle now (own ip st).
Proof.
  unfold view, own, settle, run_timers. cbn [requestCounts timers fst snd].
  f_equal; [|apply filter_own_not_due].
  destruct (decide (Exists _ _)) as [Hex|Hno].
  - apply Exists_exists in Hex as ([d k] & Hin & Hdue). cbn [fst] in Hdue.
    apply list_elem_of_filter in Hin as [Hk Hin]. cbn [snd] in Hk. subst k.
    apply (lookup_foldl_delete_elem _ _ ip d).
    apply list_elem_of_filter. by split.
  - apply lookup_foldl_delete. apply Forall_forall. intros [d k] Hin Hk.
    cbn [snd] in Hk. subst k. apply Hno.
    apply list_elem_of_filter in Hin as [Hdue Hin].
    apply Exists_exists. exists (d, ip). split; [|done].
    apply list_elem_of_filter. by split.
Qed.

Lemma settle_settle (t now : Z) (o : option Z * list (Z * string)) :
  t <= now -> settle now (settle t o) = settle now o.
Proof.
  intros Hle. destruct o as [e l]. unfold settle. cbn [fst snd].
  assert (Hl : filter (fun x : Z * string => ~ fst x <= now)
                 (filter (fun x : Z * string => ~ fst x <= t) l)
               = filter (fun x : Z * string => ~ fst x <= now) l).
  { induction l as [|x l IH]; [done|].
    rewrite !filter_cons.
    destruct (decide (~ fst x <= t)), (decide (~ fst x <= now));
      rewrite ?filter_cons, ?decide_True, ?decide_False by done;
      rewrite ?IH; (done || lia). }
  f_equal; [|exact Hl].
  destruct (decide (Exists (fun x : Z * string => fst x <= now) l)) as [Hex|Hno].
  - destruct (decide (Exists _ (filter _ l))) as [|Hno1]; [done|].
    destruct (decide (Exists (fun x : Z * string => fst x <= t) l)) as [|Hno2]; [done|].
    exfalso. apply Exists_exists in Hex as (x & Hin & Hdue).
    destruct (decide (fst x <= t)) as [Hx|Hx].
    + apply Hno2, Exists_exists. by exists x.
    + apply Hno1, Exists_exists. exists x. split; [|done].
      apply list_elem_of_filter. by split.
  - rewrite decide_False.
    + rewrite decide_False; [done|].
      intros (x & Hin & Hdue)%Exists_exists. apply Hno, Exists_exists.
      exists x. split; [done | lia].
    + intros (x & Hin & Hdue)%Exists_exists. apply Hno, Exists_exists.
      exists x. split; [|done]. by apply list_elem_of_filter in Hin as [_ Hin].
Qed.

Lemma view_run_timers (ip : string) (t now : Z) (st : state) :
  t <= now -> view ip now (run_timers t st) = view ip now st.
Proof.
  intros Hle. rewrite (view_settle ip now (run_timers t st)).
  change (own ip (run_timers t st)) with (view ip t st).
  rewrite !view_settle. by apply settle_settle.
Qed.

Lemma own_middleware_other (ip c : string) (now : Z) (st : state) :
  c <> ip -> own ip (snd (middleware now c st)) = own ip st.
Proof.
  intros Hne. unfold middleware, own.
  destruct (10 <? default 0 (requestCounts st !! c)); cbn [snd requestCounts timers];
    [done|].
  rewrite lookup_insert_ne by done. f_equal.
  rewrite filter_app, filter_cons, decide_False by done.
  by rewrite filter_nil, app_nil_r.
Qed.

Lemma own_middleware_same (ip : string) (now : Z) (s1 s2 : state) :
  own ip s1 = own ip s2 ->
  fst (middleware now ip s1) = fst (middleware now ip s2) /\
  own ip (snd (middleware now ip s1)) = own ip (snd (middleware now ip s2)).
Proof.
  unfold own. intros [= Hc Ht]. unfold middleware. rewrite Hc.
  destruct (10 <? default 0 (requestCounts s2 !! ip)); cbn [fst snd requestCounts timers].
  - split; [done|]. by rewrite Hc, Ht.
  - split; [done|]. rewrite !lookup_insert_eq, !filter_app. by rewrite Ht.
Qed.

Lemma alike_own (ip : string) (t0 : Z) (s1 s2 : state) :
  own ip s1 = own ip s2 -> alike ip t0 s1 s2.
Proof. intros Ho now _. rewrite !view_settle. by rewrite Ho. Qed.

Lemma verdicts_alike (ip : string) (reqs : list (Z * string)) :
  forall (t0 : Z) (s1 s2 : state),
  alike ip t0 s1 s2 ->
  chronological t0 reqs ->
  verdicts_for ip reqs s1
    = fst (run (filter (fun r : Z * string => snd r = ip) reqs) s2).
Proof.
  induction reqs as [|[now c] reqs IH]; intros t0 s1 s2 Hal Hch; [done|].
  destruct Hch as [Ht0 Hch]. cbn [verdicts_for]. rewrite filter_cons. cbn [snd].
  unfold request at 1.
  destruct (decide (c = ip)) as [->|Hne].
  - cbn [run]. unfold request at 1.
    destruct (own_middleware_same ip now (run_timers now s1) (run_timers now s2))
      as [Hv Ho]; [apply (Hal now Ht0)|].
    destruct (middleware now ip (run_timers now s1)) as [v1 s1'].
    destruct (middleware now ip (run_timers now s2)) as [v2 s2'].
    cbn [fst snd] in Hv, Ho. subst v2.
    rewrite (IH now s1' s2' (alike_own ip now _ _ Ho) Hch).
    by destruct (run _ s2').
  - pose proof (own_middleware_other ip c now (run_timers now s1) Hne) as Ho.
    destruct (middleware now c (run_timers now s1)) as [v1 s1']. cbn [snd] in Ho.
    apply (IH now); [|done].
    intros T HT. rewrite view_settle, Ho.
    change (own ip (run_timers now s1)) with (view ip now s1).
    rewrite view_settle, settle_settle by done.
    rewrite <- view_settle. apply Hal. lia.
Qed.

(** With requests in the order of time, the verdicts a client gets are
    the ones it would get if it were the only client. *)
Theorem verdicts_ignore_other_clients (ip : string) (t0 : Z) (reqs : list (Z * string)) :
  chronological t0 reqs ->
  verdicts_for ip reqs initial
    = fst (run (filter (fun r : Z * string => snd r = ip) reqs) initial).
Proof. apply verdicts_alike. by intros now _. Qed.

Lemma verdicts_ignore_other_clients_witness :
  verdicts_for client crowd initial
    = fst (run [(0, client); (20, client); (60005, client); (60020, client)] initial).
Proof.
  apply (verdicts_ignore_other_clients client 0 crowd).
  unfold crowd. simpl. lia.
Defined.

End RateLimitMore.

(** ** More on the browser singleton *)
Module BrowserMore.
Import Effects Browser.

Section WithEnvironment.
Variable env : environment.

(** Calls that follow one another: once a call has returned a browser,
    the variable holds it, and a later call returns it again without
    clearing the scratch directory or launching anything. *)
Theorem later_calls_reuse (w : world) (b : nat) :
  fst (getBrowser env w) = Returned b ->
  let w1 := snd (getBrowser env w) in
  browserInstance w1 = Some b /\
  (launch_calls w1 <= S (launch_calls w))%nat /\
  getBrowser env w1 = (Returned b, w1).
Proof.
  cbv zeta. unfold getBrowser, bind, get, ret.
  destruct (browserInstance w) as [b0|] eqn:Hb; cbn [fst snd].
  - intros [= ->]. rewrite Hb. repeat split; lia.
  - unfold launch. cbn [fst snd clearPuppeteerData emit launch_calls].
    destruct (launch_failure env (launch_calls w)); [done|].
    cbn. intros [= <-]. repeat split; lia.
Qed.

(** A launch that fails leaves the variable undefined, so the next call
    launches again. *)
Theorem failed_launch_is_retried (w : world) (e : js_error) :
  browserInstance w = None ->
  launch_failure env (launch_calls w) = Some e ->
  let w1 := snd (getBrowser env w) in
  fst (getBrowser env w) = Thrown e /\
  browserInstance w1 = None /\
  launch_calls w1 = S (launch_calls w) /\
  (launch_failure env (S (launch_calls w)) = None ->
   fst (getBrowser env w1) = Returned (S (launch_calls w))).
Proof.
  intros Hb He. cbv zeta. unfold getBrowser, bind, get, ret. rewrite Hb.
  unfold launch. cbn [fst snd clearPuppeteerData emit launch_calls].
  rewrite He. cbn. rewrite Hb. repeat split.
  intros Hok. cbn. by rewrite Hok.
Qed.

End WithEnvironment.

Lemma later_calls_reuse_witness :
  let env := Fixtures.site Fixtures.listing Fixtures.listing in
  let w1 := snd (getBrowser env boot) in
  browserInstance w1 = Some 0%nat /\
  (launch_calls w1 <= 1)%nat /\
  getBrowser env w1 = (Returned 0%nat, w1).
Proof.
  apply (later_calls_reuse (Fixtures.site Fixtures.listing Fixtures.listing) boot 0).
  reflexivity.
Defined.

Lemma failed_launch_is_retried_witness :
  let w1 := snd (getBrowser Samples.flaky boot) in
  fst (getBrowser Samples.flaky boot)
    = Thrown (Error "Failed to launch the browser process") /\
  browserInstance w1 = None /\
  launch_calls w1 = 1%nat /\
  (launch_failure Samples.flaky 1 = None -> fst (getBrowser Samples.flaky w1) = Returned 1%nat).
Proof.
  apply (failed_launch_is_retried Samples.flaky boot
           (Error "Failed to launch the browser process")); reflexivity.
Defined.

End BrowserMore.

(** ** More on the scrapers *)
Module ScrapeMore.
Import Effects EffectsFacts Scrape ScrapeFacts Records.

Section WithEnvironment.
Variable env : environment.

(** When [scrapeWithPuppeteer] returns: every step before the extraction
    went through, and the result is the extraction, filtered. *)
Lemma scrapeWithPuppeteer_returns (keyword : string) (w : world) (ps : list product) :
  fst (scrapeWithPuppeteer env keyword w) = Returned ps ->
  let page := visits env (page_calls w) in
  newPage_failure page = None /\
  setup_failure page = None /\
  goto_failure page = None /\
  (present Dom.sel_captcha (after_goto page) = true ->
   solve_failure page = None /\ present Dom.sel_captcha (after_solve page) = false) /\
  present Dom.sel_item (settled page) = true /\
  exists qs,
    map_outcome (rendered_item env)
                (Dom.querySelectorAll Dom.sel_item (Dom.document (settled page)))
      = Returned qs /\
    ps = List.filter valid qs.
Proof.
  cbv zeta. unfold scrapeWithPuppeteer. unfold bind at 1, emit at 1. cbv beta iota.
  match goal with |- context [bind (Browser.getBrowser env) _ ?w0] => set (w1 := w0) end.
  pose proof (getBrowser_page_calls env w1) as Hc.
  change (page_calls w1) with (page_calls w) in Hc.
  unfold bind at 1. destruct (Browser.getBrowser env w1) as [[b|e] w2]; [|done].
  cbn [snd] in Hc.
  unfold bind at 1. unfold newPage at 1. rewrite Hc.
  destruct (newPage_failure (visits env (page_calls w))) eqn:Hnew; [done|].
  cbv beta iota zeta. cbn [snd].
  set (page := visits env (page_calls w)) in *.
  unfold page_steps, getAmazonHeaders, random, bind, ret, emit, may_fail, throw, evaluate.
  cbv beta iota zeta.
  destruct (setup_failure page) eqn:Hsetup; [done|]. cbv beta iota zeta.
  destruct (goto_failure page) eqn:Hgoto; [done|]. cbv beta iota zeta.
  destruct (present Dom.sel_captcha (after_goto page)) eqn:Hc1; cbv beta iota zeta.
  - destruct (solve_failure page) eqn:Hsolve; [done|]. cbv beta iota zeta.
    destruct (present Dom.sel_captcha (after_solve page)) eqn:Hc2; [done|].
    cbv beta iota zeta.
    destruct (present Dom.sel_item (settled page)) eqn:Hitem; [|done].
    cbv beta iota zeta. cbn [fst].
    destruct (map_outcome _ _) as [qs|] eqn:Hqs; [|done].
    intros [= <-]. repeat split; try done. by exists qs.
  - destruct (present Dom.sel_item (settled page)) eqn:Hitem; [|done].
    cbv beta iota zeta. cbn [fst].
    destruct (map_outcome _ _) as [qs|] eqn:Hqs; [|done].
    intros [= <-]. repeat split; try done. by exists qs.
Qed.

(** [scrapeWithAxios], by what the request is answered. *)
Lemma scrapeWithAxios_result (keyword : string) (w : world) :
  fst (scrapeWithAxios env keyword w)
  = let r := responses env (get_calls w) in
    match fetch_failure r with
    | Some e0 =>
        Thrown (Error (if decide (response_status e0 = Some 503)
                       then "Amazon is blocking requests"
                       else message e0))
    | None =>
        match fst (data_includes (data r) "robot-verification" w) with
        | Thrown typeError => Thrown (Error (message typeError))
        | Returned true => Thrown (Error "CAPTCHA detected")
        | Returned false =>
            Returned (List.filter valid
                        (map (fetched_item env)
                             (Dom.querySelectorAll Dom.sel_item (Dom.document (parsed r)))))
        end
    end.
Proof.
  cbv zeta. unfold scrapeWithAxios, try_catch, getAmazonHeaders, random, axios_get,
    bind, ret, emit, throw.
  cbv beta iota zeta. cbn [get_calls].
  destruct (fetch_failure (responses env (get_calls w))) as [e0|]; [done|].
  cbv beta iota zeta.
  destruct (data (responses env (get_calls w))) as [|b|x|s|items|fields];
    cbn [data_includes ret throw fst]; try done.
  - by destruct (JS.includes _ _).
  - by destruct (existsb _ _).
Qed.

(** What the rendering scraper returns comes from a page on which no
    challenge was left standing and on which a result item was there. *)
Theorem rendering_returns_past_the_challenge (keyword : string) (w : world)
    (ps : list product) :
  fst (scrapeWithPuppeteer env keyword w) = Returned ps ->
  let page := visits env (page_calls w) in
  goto_failure page = None /\
  (present Dom.sel_captcha (after_goto page) = false \/
   present Dom.sel_captcha (after_solve page) = false) /\
  present Dom.sel_item (settled page) = true /\
  (length ps <= length (Dom.querySelectorAll Dom.sel_item (Dom.document (settled page))))%nat.
Proof.
  intros Hret. destruct (scrapeWithPuppeteer_returns keyword w ps Hret)
    as (_ & _ & Hgoto & Hcap & Hitem & qs & Hqs & ->).
  cbv zeta. split; [done|]. split; [|split; [done|]].
  - destruct (present Dom.sel_captcha (after_goto _)); [|by left].
    right. by apply Hcap.
  - etrans; [apply List.filter_length_le|].
    clear - Hqs. revert qs Hqs.
    induction (Dom.querySelectorAll _ _) as [|a l IH]; intros qs; cbn [map_outcome].
    + by intros [= <-].
    + destruct (rendered_item env a); [|done].
      destruct (map_outcome (rendered_item env) l) as [bs|]; [|done].
      intros [= <-]. cbn [length]. specialize (IH bs eq_refl). lia.
Qed.

(** What the raw-fetch scraper throws is a fresh error without a response
    status.  When the request fails, its message is the block message
    for a 503 and the message of the failure otherwise.  When the request
    succeeds, it is the CAPTCHA message, the body being a string that
    contains the marker or an array that has it as an element, or the
    message of the [TypeError] of [data.includes], the body being [null],
    a number, a boolean or an object; nothing is parsed then. *)
Theorem fetch_errors (keyword : string) (w : world) (e : js_error) :
  fst (scrapeWithAxios env keyword w) = Thrown e ->
  let r := responses env (get_calls w) in
  response_status e = None /\
  match fetch_failure r with
  | Some e0 =>
      (response_status e0 = Some 503 -> message e = "Amazon is blocking requests") /\
      (response_status e0 <> Some 503 -> message e = message e0)
  | None =>
      match data r with
      | JS.JString s =>
          JS.includes s "robot-verification" = true /\ message e = "CAPTCHA detected"
      | JS.JArray items =>
          existsb (JS.is_string "robot-verification") items = true /\
          message e = "CAPTCHA detected"
      | JS.JNull => message e = "Cannot read properties of null (reading 'includes')"
      | JS.JBool _ | JS.JNumber _ | JS.JObject _ =>
          message e = "data.includes is not a function"
      end
  end.
Proof.
  rewrite scrapeWithAxios_result. cbv zeta.
  destruct (fetch_failure (responses env (get_calls w))) as [e0|].
  - intros [= <-]. split; [done|]. cbn [message Error].
    destruct (decide (response_status e0 = Some 503)); by split.
  - destruct (data (responses env (get_calls w))) as [|b|x|s|items|fields];
      cbn [data_includes ret throw fst]; try by intros [= <-].
    + destruct (JS.includes _ _); [|done]. by intros [= <-].
    + destruct (existsb _ _); [|done]. by intros [= <-].
Qed.

(** *** Links of the rendering scraper *)
Lemma rendered_item_on_origin (item : Dom.located) (p : product) :
  rendered_item env item = Returned p -> on_origin p.
Proof.
  unfold rendered_item, on_origin.
  destruct (Dom.querySelector Dom.sel_dp_or_gp item) as [a|].
  - destruct (url_pathname env _) as [path|]; [|done].
    intros [= <-]. by exists path.
  - intros [= <-]. by eexists ("/dp/" +:+ _).
Qed.

Lemma map_outcome_Forall {A B} (f : A -> outcome B) (Q : B -> Prop) (l : list A) :
  (forall a b, f a = Returned b -> Q b) ->
  forall bs, map_outcome f l = Returned bs -> Forall Q bs.
Proof.
  intros Hf. induction l as [|a l IH]; intros bs; cbn [map_outcome].
  - intros [= <-]. constructor.
  - destruct (f a) as [b|] eqn:Hb; [|done].
    destruct (map_outcome f l) as [bs0|]; [|done].
    intros [= <-]. constructor; [by eapply Hf | by apply IH].
Qed.

(** Every record the rendering scraper returns has a link, and the link
    starts with the origin of the site. *)
Theorem rendered_links_on_origin (keyword : string) (w : world) (ps : list product) :
  fst (scrapeWithPuppeteer env keyword w) = Returned ps -> Forall on_origin ps.
Proof.
  intros Hret. destruct (scrapeWithPuppeteer_returns keyword w ps Hret)
    as (_ & _ & _ & _ & _ & qs & Hqs & ->).
  apply Forall_forall. intros p Hp.
  apply list_elem_of_In, filter_In in Hp as [Hp _].
  pose proof (map_outcome_Forall _ on_origin _ rendered_item_on_origin qs Hqs) as Hall.
  rewrite Forall_forall in Hall. apply Hall. by apply list_elem_of_In.
Qed.

(** *** The two scrapers on the same document *)
Lemma rendered_item_core (item : Dom.located) (p : product) :
  rendered_item env item = Returned p -> core p = core (fetched_item env item).
Proof.
  unfold rendered_item, fetched_item, core.
  destruct (Dom.querySelector Dom.sel_dp_or_gp item) as [a|].
  - destruct (url_pathname env _); [|done]. by intros [= <-].
  - by intros [= <-].
Qed.

Lemma valid_core (p q : product) : core p = core q -> valid p = valid q.
Proof. unfold core, valid. by intros [= -> -> _]. Qed.

Lemma map_outcome_core (l : list Dom.located) :
  forall qs, map_outcome (rendered_item env) l = Returned qs ->
  map core (List.filter valid qs)
    = map core (List.filter valid (map (fetched_item env) l)).
Proof.
  induction l as [|a l IH]; intros qs; cbn [map_outcome].
  - by intros [= <-].
  - destruct (rendered_item env a) as [p|] eqn:Hp; [|done].
    destruct (map_outcome (rendered_item env) l) as [bs|]; [|done].
    intros [= <-]. cbn [map List.filter].
    pose proof (rendered_item_core a p Hp) as Hcore.
    rewrite (valid_core _ _ Hcore).
    destruct (valid (fetched_item env a)); cbn [map]; by rewrite ?Hcore, (IH bs).
Qed.

(** Given the same document, the two scrapers return the same records
    as far as title, price and rating go, in the same order. *)
Theorem backends_agree (keyword : string) (w1 w2 : world) (ps1 ps2 : list product) :
  fst (scrapeWithPuppeteer env keyword w1) = Returned ps1 ->
  fst (scrapeWithAxios env keyword w2) = Returned ps2 ->
  settled (visits env (page_calls w1)) = parsed (responses env (get_calls w2)) ->
  map core ps1 = map core ps2.
Proof.
  intros H1 H2 Hdoc.
  destruct (scrapeWithPuppeteer_returns keyword w1 ps1 H1)
    as (_ & _ & _ & _ & _ & qs & Hqs & ->).
  rewrite scrapeWithAxios_result in H2. cbv zeta in H2.
  destruct (fetch_failure _); [done|].
  destruct (fst (data_includes _ _ _)) as [[|]|]; [done| |done].
  injection H2 as <-. rewrite <- Hdoc. by apply map_outcome_core.
Qed.

End WithEnvironment.

Lemma rendering_returns_past_the_challenge_witness :
  let page := visits (Fixtures.site Samples.shelf Samples.shelf) 0 in
  goto_failure page = None /\
  (present Dom.sel_captcha (after_goto page) = false \/
   present Dom.sel_captcha (after_solve page) = false) /\
  present Dom.sel_item (settled page) = true /\
  (1 <= length (Dom.querySelectorAll Dom.sel_item (Dom.document (settled page))))%nat.
Proof.
  apply (rendering_returns_past_the_challenge
           (Fixtures.site Samples.shelf Samples.shelf) "laptop" boot
           [Product (Some "Laptop 14") (Some "$499.00") (Some "4.5 out of 5 stars") None
                    (Some "https://www.amazon.com/Laptop-14/dp/B01/ref=sr_1_1")]).
  vm_compute. reflexivity.
Defined.

Lemma fetch_errors_witness :
  response_status (Error "Amazon is blocking requests") = None /\
  (Some 503 = Some 503 ->
   message (Error "Amazon is blocking requests") = "Amazon is blocking requests") /\
  (Some 503 <> Some 503 ->
   message (Error "Amazon is blocking requests")
     = "Request failed with status code 503").
Proof.
  apply (fetch_errors Samples.blocked "laptop" boot (Error "Amazon is blocking requests")).
  vm_compute. reflexivity.
Defined.

(** A body that is JSON: the request succeeds and [data.includes]
    throws, whatever the document would have been. *)
Example json_body_is_a_type_error :
  fst (scrapeWithAxios Samples.throttled "laptop" boot)
    = Thrown (Error "data.includes is not a function").
Proof. vm_compute. reflexivity. Qed.

Lemma rendered_links_on_origin_witness :
  Forall on_origin
    [Product (Some "Laptop 14") (Some "$499.00") (Some "4.5 out of 5 stars") None
             (Some "https://www.amazon.com/Laptop-14/dp/B01/ref=sr_1_1")].
Proof.
  apply (rendered_links_on_origin (Fixtures.site Samples.shelf Samples.shelf) "laptop" boot).
  vm_compute. reflexivity.
Defined.

Lemma backends_agree_witness :
  map core
    [Product (Some "Laptop 14") (Some "$499.00") (Some "4.5 out of 5 stars") None
             (Some "https://www.amazon.com/Laptop-14/dp/B01/ref=sr_1_1")]
  = map core
      [Product (Some "Laptop 14") (Some "$499.00") (Some "4.5 out of 5 stars") None
               (Some "/Laptop-14/dp/B01/ref=sr_1_1")].
Proof.
  apply (backends_agree (Fixtures.site Samples.shelf Samples.shelf) "laptop" boot boot);
    vm_compute; reflexivity.
Defined.

End ScrapeMore.

(** ** More on the handler *)
Module HandlerMore.
Import Effects EffectsFacts Scrape ScrapeFacts Handler HandlerFacts Runs.

Lemma complete_valid (p : product) : complete p -> valid p = true.
Proof.
  intros (t & c & Ht & Hne & Hc & Hnc). unfold valid. rewrite Ht, Hc.
  by destruct t, c.
Qed.

Lemma filter_valid_id (ps : list product) : Forall complete ps -> List.filter valid ps = ps.
Proof.
  induction 1 as [|p ps Hp _ IH]; [done|].
  cbn [List.filter]. by rewrite (complete_valid p Hp), IH.
Qed.

Lemma usable_cases (keyword : option query_value) :
  usable keyword \/
  (~ usable keyword /\
   forall env retry w, handler env keyword retry w = (Returned BadRequest, w)).
Proof.
  destruct keyword as [[[|a k]|s]|].
  - right. split; [by intros (a & k & [=])|done].
  - left. by exists a, k.
  - right. split; [by intros (a & k & [=])|done].
  - right. split; [by intros (a & k & [=])|done].
Qed.

Section WithEnvironment.
Variable env : environment.

(** The loop ends, with records that are all complete. *)
Lemma attempts_complete (keyword : string) (retryCount : Z) (fuel : nat) :
  forall (a : Z) (st : loop_state) (w : world),
  Forall complete (products st) ->
  exists st1,
    fst (attempts env fuel keyword retryCount a st w) = Returned st1 /\
    Forall complete (products st1).
Proof.
  induction fuel as [|fuel IH]; intros a st w Hst; [by exists st|].
  cbn [attempts]. destruct (a <=? retryCount); [|by exists st].
  unfold bind. rewrite attempt_body_unfold.
  pose proof (scrapeWithPuppeteer_complete env keyword (entering a w)) as Hp.
  destruct (scrapeWithPuppeteer env keyword (entering a w)) as [[ps|e] w1].
  - specialize (Hp ps w1 eq_refl). cbn [fst snd].
    destruct (0 <? length ps)%nat; [by eexists | by apply IH].
  - destruct (a =? retryCount); [|by apply IH].
    pose proof (scrapeWithAxios_complete env keyword w1) as Hx.
    destruct (scrapeWithAxios env keyword w1) as [[ps|e1] w2]; cbn [fst snd].
    + specialize (Hx ps w2 eq_refl). by apply IH.
    + by apply IH.
Qed.

(** Every request is answered, and the answer is one of three kinds. *)
Lemma handler_classified (keyword retry : option query_value) (w : world) :
  exists resp,
    fst (handler env keyword retry w) = Returned resp /\
    match resp with
    | BadRequest => ~ usable keyword /\ snd (handler env keyword retry w) = w
    | NotFound err _ => usable keyword /\ err = "No products found"
    | Success count products =>
        usable keyword /\ count = length products /\ products <> [] /\
        Forall complete products
    | ServerError _ => False
    end.
Proof.
  destruct (usable_cases keyword) as [Hu|[Hnu Hbad]].
  - pose proof Hu as (a & k & ->).
    unfold handler, try_catch, bind.
    destruct (attempts_complete (String a k) (retryCount_of retry)
                (Z.to_nat (retryCount_of retry + 1)) 0 (LoopState [] None) w)
      as (st1 & Hfst & Hall); [constructor|].
    destruct (attempts env _ _ _ _ _ w) as [o w1]. cbn [fst] in Hfst. subst o.
    destruct (products st1) as [|p ps] eqn:Hps.
    + eexists. split; [reflexivity|]. by split.
    + eexists. split; [reflexivity|]. cbn [fst snd ret].
      rewrite (filter_valid_id (p :: ps) Hall). by repeat split.
  - exists BadRequest. rewrite Hbad. by split.
Qed.


(** The answer is 400 exactly when the keyword is missing, empty or not a
    string; nothing has been done then. *)
Theorem bad_request_iff (keyword retry : option query_value) (w : world) :
  (fst (handler env keyword retry w) = Returned BadRequest <-> ~ usable keyword) /\
  (~ usable keyword -> handler env keyword retry w = (Returned BadRequest, w)).
Proof.
  destruct (usable_cases keyword) as [Hu|[Hnu Hbad]].
  - split; [|done]. split; [|done].
    destruct (handler_classified keyword retry w) as (resp & Hfst & Hkind).
    rewrite Hfst. intros [= ->]. by destruct Hkind.
  - split; [|by intros _]. by rewrite Hbad.
Qed.

(** A 200 answer has at least one product, [count] is the number of
    products in it, and every product has a title and a price: the
    second filter of the handler removes nothing. *)
Theorem success_shape (keyword retry : option query_value) (w : world)
    (count : nat) (products : list product) :
  fst (handler env keyword retry w) = Returned (Success count products) ->
  count = length products /\ (1 <= count)%nat /\ Forall complete products.
Proof.
  intros H. destruct (handler_classified keyword retry w) as (resp & Hfst & Hkind).
  rewrite Hfst in H. injection H as ->.
  destruct Hkind as (_ & -> & Hne & Hall). repeat split; [|done].
  destruct products; [done | cbn; lia].
Qed.

(** *** Runs that end well *)
Lemma attempt_world_obs (keyword : string) (n : nat) :
  forall (a : Z) (w : world),
  orchestration (trace (attempt_world env keyword a n w))
    = (orchestration (trace w) ++ schedule keyword a (S n))%list.
Proof.
  induction n as [|n IH]; intros a w; cbn [attempt_world schedule].
  - rewrite scrapeWithPuppeteer_obs, entering_obs. unfold attempt_events.
    by rewrite app_nil_r, <- app_assoc.
  - rewrite IH, scrapeWithPuppeteer_obs, entering_obs. cbn [schedule].
    unfold attempt_events. by rewrite <- !app_assoc.
Qed.

Lemma attempt_outcome_complete (keyword : string) (n : nat) :
  forall (a : Z) (w : world) (ps : list product),
  attempt_outcome env keyword a n w = Returned ps -> Forall complete ps.
Proof.
  induction n as [|n IH]; intros a w ps; cbn [attempt_outcome]; [|apply IH].
  pose proof (scrapeWithPuppeteer_complete env keyword (entering a w)) as Hp.
  destruct (scrapeWithPuppeteer env keyword (entering a w)) as [o w1].
  cbn [fst]. intros ->. by apply (Hp ps w1).
Qed.

Lemma attempts_success (keyword : string) (retryCount : Z) (p : product)
    (ps : list product) (n : nat) :
  forall (a : Z) (st : loop_state) (w : world) (fuel : nat),
  a + Z.of_nat n <= retryCount ->
  (n < fuel)%nat ->
  (forall j : nat, (j < n)%nat -> no_records (attempt_outcome env keyword a j w)) ->
  attempt_outcome env keyword a n w = Returned (p :: ps) ->
  exists last,
    attempts env fuel keyword retryCount a st w
      = (Returned (LoopState (p :: ps) last), attempt_world env keyword a n w).
Proof.
  induction n as [|n IH]; intros a st w [|fuel] Ha Hfuel Hno Hok; try lia.
  - cbn [attempts attempt_outcome attempt_world] in *.
    destruct (Z.leb_spec a retryCount); [|lia].
    unfold bind. rewrite attempt_body_unfold.
    destruct (scrapeWithPuppeteer env keyword (entering a w)) as [o w1].
    cbn [fst snd] in *. subst o. cbn. by eexists.
  - pose proof (Hno 0%nat ltac:(lia)) as H0.
    assert (Hnext : forall j : nat, (j < n)%nat ->
              no_records (attempt_outcome env keyword (a + 1) j
                            (snd (scrapeWithPuppeteer env keyword (entering a w))))).
    { intros j Hj. apply (Hno (S j)). lia. }
    cbn [attempts attempt_outcome attempt_world] in *.
    destruct (Z.leb_spec a retryCount); [|lia].
    unfold bind. rewrite attempt_body_unfold.
    destruct (Z.eqb_spec a retryCount); [lia|].
    destruct (scrapeWithPuppeteer env keyword (entering a w)) as [[qs|e] w1];
      cbn [fst snd] in *.
    + destruct qs; [|done]. cbn [length Nat.ltb Nat.leb].
      apply IH; (done || lia).
    + apply IH; (done || lia).
Qed.

(** When attempt [i] is the first to give records, the handler answers
    200 with exactly these records; attempt [i] is the last event: no
    later attempt, no wait after it, no raw fetch. *)
Theorem first_success_ends_the_run (a : ascii) (k : string)
    (retry : option query_value) (w : world) (i : nat) (p : product) (ps : list product) :
  let keyword := String a k in
  Z.of_nat i <= retryCount_of retry ->
  (forall j : nat, (j < i)%nat -> no_records (attempt_outcome env keyword 0 j w)) ->
  attempt_outcome env keyword 0 i w = Returned (p :: ps) ->
  handler env (Some (QString keyword)) retry w
    = (Returned (Success (S (length ps)) (p :: ps)), attempt_world env keyword 0 i w) /\
  orchestration (trace (attempt_world env keyword 0 i w))
    = (orchestration (trace w) ++ schedule keyword 0 (S i))%list.
Proof.
  intros keyword Hi Hno Hok. split; [|apply attempt_world_obs].
  destruct (attempts_success (String a k) (retryCount_of retry) p ps i 0 (LoopState [] None) w
              (Z.to_nat (retryCount_of retry + 1)))
    as [last Hrun]; [lia | lia | done | done |].
  subst keyword. unfold handler, try_catch, bind. cbv beta iota zeta.
  rewrite Hrun. cbn [products ret].
  by rewrite (filter_valid_id (p :: ps) (attempt_outcome_complete (String a k) i 0 w _ Hok)).
Qed.

(** *** Runs that end in the fallback *)
Lemma attempts_fallback (keyword : string) (retryCount : Z) (e : js_error) (n : nat) :
  forall (a : Z) (st : loop_state) (w : world) (fuel : nat),
  a + Z.of_nat n = retryCount ->
  (n < fuel)%nat ->
  products st = [] ->
  (forall j : nat, (j < n)%nat -> no_records (attempt_outcome env keyword a j w)) ->
  attempt_outcome env keyword a n w = Thrown e ->
  attempts env fuel keyword retryCount a st w
    = match scrapeWithAxios env keyword (attempt_world env keyword a n w) with
      | (Returned ps, w2) => (Returned (LoopState ps (Some e)), w2)
      | (Thrown ex, w2) => (Returned (LoopState [] (Some ex)), w2)
      end.
Proof.
  induction n as [|n IH]; intros a st w [|fuel] Ha Hfuel Hst Hno Hthrown; try lia.
  - assert (a = retryCount) as -> by lia.
    cbn [attempts attempt_outcome attempt_world] in *.
    rewrite Z.leb_refl. unfold bind. rewrite attempt_body_unfold, Z.eqb_refl.
    destruct (scrapeWithPuppeteer env keyword (entering retryCount w)) as [o w1].
    cbn [fst snd] in *. subst o.
    destruct (scrapeWithAxios env keyword w1) as [[ps|ex] w2]; cbn [fst snd];
      rewrite attempts_done by lia; [done|]. by rewrite Hst.
  - pose proof (Hno 0%nat ltac:(lia)) as H0.
    assert (Hnext : forall j : nat, (j < n)%nat ->
              no_records (attempt_outcome env keyword (a + 1) j
                            (snd (scrapeWithPuppeteer env keyword (entering a w))))).
    { intros j Hj. apply (Hno (S j)). lia. }
    cbn [attempts attempt_outcome attempt_world] in *.
    destruct (Z.leb_spec a retryCount); [|lia].
    unfold bind. rewrite attempt_body_unfold.
    destruct (Z.eqb_spec a retryCount); [lia|].
    destruct (scrapeWithPuppeteer env keyword (entering a w)) as [[qs|e0] w1];
      cbn [fst snd] in *.
    + destruct qs; [|done]. cbn [length Nat.ltb Nat.leb].
      apply IH; (done || lia).
    + apply IH; (done || lia).
Qed.

(** When no attempt gives a record and the last one throws, the raw fetch
    decides the answer: its records if it has some, else a 404 whose
    details are the message of the last error, the one of the raw fetch
    if it threw, the one of the last rendering attempt if it returned
    nothing. *)
Theorem fallback_decides (a : ascii) (k : string)
    (retry : option query_value) (w : world) (e : js_error) :
  let keyword := String a k in
  let r := retryCount_of retry in
  0 <= r ->
  (forall j : nat, Z.of_nat j < r -> no_records (attempt_outcome env keyword 0 j w)) ->
  attempt_outcome env keyword 0 (Z.to_nat r) w = Thrown e ->
  handler env (Some (QString keyword)) retry w
    = match scrapeWithAxios env keyword (attempt_world env keyword 0 (Z.to_nat r) w) with
      | (Returned (p :: ps), w2) => (Returned (Success (S (length ps)) (p :: ps)), w2)
      | (Returned [], w2) => (Returned (NotFound "No products found" (details_of e)), w2)
      | (Thrown ex, w2) => (Returned (NotFound "No products found" (details_of ex)), w2)
      end.
Proof.
  intros keyword r Hr Hno Hthrown. subst keyword.
  unfold handler, try_catch, bind. cbv beta iota zeta. fold r.
  rewrite (attempts_fallback (String a k) r e (Z.to_nat r) 0 (LoopState [] None) w
             (Z.to_nat (r + 1))); [|lia|lia|done| |done].
  - pose proof (scrapeWithAxios_complete env (String a k)
                  (attempt_world env (String a k) 0 (Z.to_nat r) w)) as Hx.
    destruct (scrapeWithAxios env (String a k) _) as [[[|p ps]|ex] w2];
      cbn [products lastError ret].
    + unfold details_of. by destruct e as [[|b m] s].
    + by rewrite (filter_valid_id (p :: ps) (Hx _ _ eq_refl)).
    + unfold details_of. by destruct ex as [[|b m] s].
  - intros j Hj. apply Hno. lia.
Qed.

(** *** Runs that end without the fallback *)
Lemma attempts_quiet (keyword : string) (retryCount : Z) (n : nat) :
  forall (a : Z) (st : loop_state) (w : world) (fuel : nat),
  a + Z.of_nat n = retryCount ->
  (n < fuel)%nat ->
  products st = [] ->
  (forall j : nat, (j < n)%nat -> no_records (attempt_outcome env keyword a j w)) ->
  attempt_outcome env keyword a n w = Returned [] ->
  attempts env fuel keyword retryCount a st w
    = (Returned (LoopState [] (last_thrown env keyword a n w (lastError st))),
       attempt_world env keyword a n w).
Proof.
  induction n as [|n IH]; intros a st w [|fuel] Ha Hfuel Hst Hno Hempty; try lia.
  - assert (a = retryCount) as -> by lia.
    cbn [attempts attempt_outcome attempt_world last_thrown] in *.
    rewrite Z.leb_refl. unfold bind. rewrite attempt_body_unfold.
    destruct (scrapeWithPuppeteer env keyword (entering retryCount w)) as [o w1].
    cbn [fst snd] in *. subst o. cbn [length Nat.ltb Nat.leb fst snd].
    by rewrite attempts_done by lia.
  - pose proof (Hno 0%nat ltac:(lia)) as H0.
    assert (Hnext : forall j : nat, (j < n)%nat ->
              no_records (attempt_outcome env keyword (a + 1) j
                            (snd (scrapeWithPuppeteer env keyword (entering a w))))).
    { intros j Hj. apply (Hno (S j)). lia. }
    cbn [attempts attempt_outcome attempt_world last_thrown] in *.
    destruct (Z.leb_spec a retryCount); [|lia].
    unfold bind. rewrite attempt_body_unfold.
    destruct (Z.eqb_spec a retryCount); [lia|].
    destruct (scrapeWithPuppeteer env keyword (entering a w)) as [[qs|e0] w1];
      cbn [fst snd] in *.
    + destruct qs; [|done]. cbn [length Nat.ltb Nat.leb].
      rewrite IH; (done || lia).
    + rewrite IH; cbn [products lastError]; (done || lia).
Qed.

(** When no attempt gives a record and the last one returns an empty list,
    the answer is 404 without any raw fetch: the events of the request are
    the attempts and their waits.  The details are the message of the
    latest attempt that threw, even though a later attempt went through
    without error, and the default text if no attempt threw. *)
Theorem empty_render_reports_stale_error (a : ascii) (k : string)
    (retry : option query_value) (w : world) :
  let keyword := String a k in
  let r := retryCount_of retry in
  0 <= r ->
  (forall j : nat, Z.of_nat j < r -> no_records (attempt_outcome env keyword 0 j w)) ->
  attempt_outcome env keyword 0 (Z.to_nat r) w = Returned [] ->
  handler env (Some (QString keyword)) retry w
    = (Returned (NotFound "No products found"
                   (match last_thrown env keyword 0 (Z.to_nat r) w None with
                    | Some e => details_of e
                    | None => "Try different keywords"
                    end)),
       attempt_world env keyword 0 (Z.to_nat r) w) /\
  orchestration (trace (attempt_world env keyword 0 (Z.to_nat r) w))
    = (orchestration (trace w) ++ schedule keyword 0 (S (Z.to_nat r)))%list.
Proof.
  intros keyword r Hr Hno Hempty. split; [|apply attempt_world_obs].
  subst keyword. unfold handler, try_catch, bind. cbv beta iota zeta. fold r.
  rewrite (attempts_quiet (String a k) r (Z.to_nat r) 0 (LoopState [] None) w
             (Z.to_nat (r + 1))); [|lia|lia|done| |done].
  - cbn [products lastError ret].
    destruct (last_thrown env (String a k) 0 (Z.to_nat r) w None) as [[[|b m] s]|]; done.
  - intros j Hj. apply Hno. lia.
Qed.

(** *** What a request can cost *)
Lemma waited_app (t1 t2 : list event) : waited (t1 ++ t2) = waited t1 + waited t2.
Proof.
  induction t1 as [|ev t1 IH]; [done|]. destruct ev; cbn [app waited]; rewrite IH; lia.
Qed.

Lemma waited_orchestration (t : list event) : waited (orchestration t) = waited t.
Proof.
  unfold orchestration. induction t as [|ev t IH]; [done|].
  destruct ev; cbn [List.filter is_orchestration waited]; by rewrite IH.
Qed.

Lemma waited_schedule (keyword : string) (n : nat) :
  forall a, 0 <= a ->
  waited (schedule keyword a n) = 1000 * Z.of_nat n * (2 * a + Z.of_nat n - 1).
Proof.
  induction n as [|n IH]; intros a Ha; [cbn; lia|].
  cbn [schedule]. rewrite waited_app, IH by lia. unfold attempt_events.
  destruct (Z.ltb_spec 0 a); cbn [app waited]; nia.
Qed.

(** Whatever the query, one request calls the rendering scraper at most
    4 times and the raw-fetch scraper at most once, and waits at most
    12000 ms in all. *)
Theorem request_cost (keyword retry : option query_value) (w : world) :
  let w1 := snd (handler env keyword retry w) in
  (puppeteer_calls (trace w1) <= puppeteer_calls (trace w) + 4)%nat /\
  (axios_calls (trace w1) <= axios_calls (trace w) + 1)%nat /\
  waited (trace w1) <= waited (trace w) + 12000.
Proof.
  intros w1. destruct (usable_cases keyword) as [(a & k & ->)|[_ Hbad]].
  - pose proof (handler_world env a k retry w) as Hw. fold w1 in Hw.
    pose proof (retryCount_le_3 retry) as H3.
    destruct (attempts_schedule env (String a k) (retryCount_of retry)
                (Z.to_nat (retryCount_of retry + 1)) 0 (LoopState [] None) w)
      as (n & fb & st1 & _ & _ & Hbound & _ & _ & Hobs).
    rewrite <- Hw in Hobs.
    assert (Hn : (n <= 4)%nat) by lia.
    split; [|split].
    + rewrite <- (puppeteer_calls_orchestration (trace w1)), Hobs.
      rewrite !puppeteer_calls_app, puppeteer_calls_orchestration,
        puppeteer_calls_schedule, puppeteer_calls_fallback. lia.
    + rewrite <- (axios_calls_orchestration (trace w1)), Hobs.
      rewrite !axios_calls_app, axios_calls_orchestration, axios_calls_schedule.
      destruct fb; cbn; lia.
    + rewrite <- (waited_orchestration (trace w1)), Hobs.
      rewrite !waited_app, waited_orchestration, waited_schedule by lia.
      assert (waited (if fb then [Axios (String a k)] else []) = 0) as -> by by destruct fb.
      nia.
  - unfold w1. rewrite Hbad. cbn [snd]. lia.
Qed.

End WithEnvironment.

Lemma first_success_ends_the_run_witness :
  handler Samples.second_time (Some (QString "laptop")) (Some (QString "2")) boot
    = (Returned (Success 1
                   [Product (Some "Laptop 14") (Some "$499.00") (Some "4.5 out of 5 stars")
                            None (Some "https://www.amazon.com/Laptop-14/dp/B01/ref=sr_1_1")]),
       attempt_world Samples.second_time "laptop" 0 1 boot) /\
  orchestration (trace (attempt_world Samples.second_time "laptop" 0 1 boot))
    = [Puppeteer "laptop"; Sleep 2000; Puppeteer "laptop"].
Proof.
  apply (first_success_ends_the_run Samples.second_time "l" "aptop" (Some (QString "2")) boot
           1 (Product (Some "Laptop 14") (Some "$499.00") (Some "4.5 out of 5 stars")
                      None (Some "https://www.amazon.com/Laptop-14/dp/B01/ref=sr_1_1")) []).
  - vm_compute. discriminate.
  - intros [|j] Hj; [by vm_compute | lia].
  - vm_compute. reflexivity.
Defined.

Lemma fallback_decides_witness :
  handler Samples.blocked (Some (QString "laptop")) (Some (QString "1")) boot
    = (Returned (NotFound "No products found" "Amazon is blocking requests"),
       snd (scrapeWithAxios Samples.blocked "laptop"
              (attempt_world Samples.blocked "laptop" 0 1 boot))).
Proof.
  pose proof (fallback_decides Samples.blocked "l" "aptop" (Some (QString "1")) boot
                (Error "Navigation timeout of 30000 ms exceeded")) as H.
  cbv zeta in H.
  assert (H0 : 0 <= retryCount_of (Some (QString "1"))) by (vm_compute; discriminate).
  assert (Hno : forall j : nat, Z.of_nat j < retryCount_of (Some (QString "1")) ->
            no_records (attempt_outcome Samples.blocked "laptop" 0 j boot)).
  { intros [|j] Hj; [by vm_compute|].
    exfalso. change (retryCount_of (Some (QString "1"))) with 1 in Hj. lia. }
  specialize (H H0 Hno ltac:(vm_compute; reflexivity)).
  rewrite H. vm_compute. reflexivity.
Defined.

Lemma empty_render_reports_stale_error_witness :
  handler Samples.recovering (Some (QString "laptop")) (Some (QString "1")) boot
    = (Returned (NotFound "No products found" "Navigation timeout of 30000 ms exceeded"),
       attempt_world Samples.recovering "laptop" 0 1 boot) /\
  orchestration (trace (attempt_world Samples.recovering "laptop" 0 1 boot))
    = [Puppeteer "laptop"; Sleep 2000; Puppeteer "laptop"].
Proof.
  pose proof (empty_render_reports_stale_error Samples.recovering "l" "aptop"
                (Some (QString "1")) boot) as H.
  cbv zeta in H.
  assert (H0 : 0 <= retryCount_of (Some (QString "1"))) by (vm_compute; discriminate).
  assert (Hno : forall j : nat, Z.of_nat j < retryCount_of (Some (QString "1")) ->
            no_records (attempt_outcome Samples.recovering "laptop" 0 j boot)).
  { intros [|j] Hj; [by vm_compute|].
    exfalso. change (retryCount_of (Some (QString "1"))) with 1 in Hj. lia. }
  destruct (H H0 Hno ltac:(vm_compute; reflexivity)) as [Hh Ht].
  change (Z.to_nat (retryCount_of (Some (QString "1")))) with 1%nat in Ht.
  split; [rewrite Hh; vm_compute; reflexivity | rewrite Ht; vm_compute; reflexivity].
Defined.

Lemma bad_request_iff_witness :
  handler (Fixtures.site Fixtures.listing Fixtures.listing)
          (Some (QOther "laptop,phone")) (Some (QString "2")) boot
    = (Returned BadRequest, boot).
Proof.
  apply (bad_request_iff (Fixtures.site Fixtures.listing Fixtures.listing)
           (Some (QOther "laptop,phone")) (Some (QString "2")) boot).
  by intros (a & k & [=]).
Defined.

Lemma success_shape_witness :
  1%nat = length [Product (Some "Laptop 14") (Some "$499.00") (Some "4.5 out of 5 stars")
                          None (Some "https://www.amazon.com/Laptop-14/dp/B01/ref=sr_1_1")] /\
  (1 <= 1)%nat /\
  Forall complete
    [Product (Some "Laptop 14") (Some "$499.00") (Some "4.5 out of 5 stars") None
             (Some "https://www.amazon.com/Laptop-14/dp/B01/ref=sr_1_1")].
Proof.
  apply (success_shape Samples.second_time (Some (QString "laptop")) (Some (QString "2")) boot).
  vm_compute. reflexivity.
Defined.

End HandlerMore.

(** ** More on the header generator *)
Module HeadersMore.
Import Headers HeadersFacts.

Lemma user_agent_reads_back (r : spec_float) :
  is_draw r = true ->
  header "user-agent" (getAmazonHeaders r) ≫= user_agent_version = Some (chromeVersion r).
Proof.
  intros Hdraw. pose proof (floor_draw_times_ten r Hdraw) as Hd.
  unfold getAmazonHeaders, chromeVersion.
  set (d := floor (mul r ten)) in *. clearbody d. clear Hdraw.
  assert (Hcases : d = 0 \/ d = 1 \/ d = 2 \/ d = 3 \/ d = 4 \/
                   d = 5 \/ d = 6 \/ d = 7 \/ d = 8 \/ d = 9) by lia.
  clear Hd.
  repeat (destruct Hcases as [->|Hcases]); try subst d; vm_compute; reflexivity.
Qed.

(** Two draws give the same headers exactly when they give the same
    version, and the headers other than [sec-ch-ua] and [user-agent] are
    the same for every draw. *)
Theorem identity_is_the_version (r1 r2 : spec_float) :
  is_draw r1 = true ->
  is_draw r2 = true ->
  (getAmazonHeaders r1 = getAmazonHeaders r2 <-> chromeVersion r1 = chromeVersion r2) /\
  (forall name, name <> "sec-ch-ua" -> name <> "user-agent" ->
     header name (getAmazonHeaders r1) = header name (getAmazonHeaders r2)).
Proof.
  intros H1 H2. split; [split|].
  - intros Heq. pose proof (user_agent_reads_back r1 H1) as Hv1.
    rewrite Heq, (user_agent_reads_back r2 H2) in Hv1. by injection Hv1.
  - intros Heq. unfold getAmazonHeaders. by rewrite Heq.
  - intros name Hn1 Hn2. unfold header, getAmazonHeaders.
    repeat (cbn [Dom.assoc];
            match goal with
            | |- context [String.eqb ?a name] =>
                destruct (String.eqb_spec a name) as [<-|_]; [done|]
            end).
    reflexivity.
Qed.

Lemma identity_is_the_version_witness :
  (getAmazonHeaders (S754_finite false 4503599627370496 (-53))
     = getAmazonHeaders (S754_finite false 4953959590107546 (-53))
   <-> chromeVersion (S754_finite false 4503599627370496 (-53))
         = chromeVersion (S754_finite false 4953959590107546 (-53))) /\
  (forall name, name <> "sec-ch-ua" -> name <> "user-agent" ->
     header name (getAmazonHeaders (S754_finite false 4503599627370496 (-53)))
       = header name (getAmazonHeaders (S754_finite false 4953959590107546 (-53)))).
Proof.
  apply (identity_is_the_version (S754_finite false 4503599627370496 (-53))
                                 (S754_finite false 4953959590107546 (-53)));
    vm_compute; reflexivity.
Defined.

End HeadersMore.

(** ** The rate limiter in front of the handler *)
Module AppMore.
Import Effects Handler Runs App.

(** The limiter decides before the handler looks at the query: its
    verdict and its new state do not depend on the query; a limited
    request leaves the scraping state untouched; a request that is
    answered 400 has been counted all the same. *)
Theorem limiter_comes_first (env : environment) (now : Z) (ip : string)
    (keyword retry : option query_value) (st : RateLimit.state) (w : world) :
  let rep := fst (fst (serve env now ip keyword retry st w)) in
  let st1 := snd (fst (serve env now ip keyword retry st w)) in
  let w1 := snd (serve env now ip keyword retry st w) in
  st1 = snd (RateLimit.request now ip st) /\
  (rep = Limited <-> fst (RateLimit.request now ip st) = RateLimit.TooManyRequests) /\
  (rep = Limited -> w1 = w) /\
  (~ usable keyword -> rep <> Limited ->
   rep = Answered (Returned BadRequest) /\ w1 = w /\
   RateLimit.requestCounts st1 !! ip
     = Some (default 0 (RateLimit.requestCounts (RateLimit.run_timers now st) !! ip) + 1)).
Proof.
  cbv zeta. unfold serve.
  destruct (RateLimit.request now ip st) as [v st1] eqn:Hreq.
  destruct v; cbn [fst snd].
  - destruct (handler env keyword retry w) as [o w1] eqn:Hh. cbn [fst snd].
    split; [done|]. split; [by split|]. split; [done|].
    intros Hbad _.
    destruct (HandlerMore.usable_cases keyword) as [Hu|[_ Hb]]; [done|].
    rewrite Hb in Hh. injection Hh as <- <-. split; [done|]. split; [done|].
    unfold RateLimit.request, RateLimit.middleware in Hreq.
    destruct (10 <? _); [done|]. injection Hreq as <-.
    cbn [RateLimit.requestCounts]. apply lookup_insert_eq.
  - split; [done|]. split; [by split|]. split; [done|]. by intros _ [].
Qed.

Lemma limiter_comes_first_witness :
  fst (fst (serve (Fixtures.site Fixtures.listing Fixtures.listing) 0 "203.0.113.7"
                  None (Some (QString "2")) RateLimit.initial boot))
    = Answered (Returned BadRequest) /\
  RateLimit.requestCounts
    (snd (fst (serve (Fixtures.site Fixtures.listing Fixtures.listing) 0 "203.0.113.7"
                     None (Some (QString "2")) RateLimit.initial boot))) !! "203.0.113.7"
    = Some 1.
Proof.
  destruct (limiter_comes_first (Fixtures.site Fixtures.listing Fixtures.listing) 0
              "203.0.113.7" None (Some (QString "2")) RateLimit.initial boot)
    as (_ & _ & _ & H).
  destruct H as (Hr & _ & Hc).
  - by intros (a & k & [=]).
  - vm_compute. discriminate.
  - split; [exact Hr|]. rewrite Hc. vm_compute. reflexivity.
Defined.

End AppMore.
